(** * Customer-behaviour aggregation of [eda-analysis.py]

    A shallow embedding of the pandas program: typed columns ([Series]),
    data frames, the grouping and aggregation kernels used by
    [analyze_customer_behavior], the inner join it computes and discards,
    and the in-place column writes of [perform_eda] and
    [generate_visualizations] on the shared transaction table.

    Numbers.  An [int64] column holds machine integers; its sum wraps
    around modulo 2^64 as numpy's does.  A [float64] column is idealised:
    its values are exact rationals ([Qc]) and [None] stands for NaN, so
    rounding, infinities and signed zeros are outside the model.  What is
    proved of a float sum is therefore which values are added up, and
    what is proved of a float mean is which sum is divided by which
    count; that a sum is the sum of its parts, which holds for rationals
    but not for doubles, is stated for integer columns only. *)

From Stdlib Require Import ZArith QArith Qcanon Qcabs.
From stdpp Require Import base option list numbers strings sorting.

Local Open Scope Z_scope.

(** ** Outcomes *)

(** The exceptions the program can raise.  None is caught anywhere in the
    source, so an exception raised by a callee is the caller's outcome. *)
Inductive Exn : Type :=
| KeyError (missing : list string)   (* a column label does not exist *)
| ValueError                         (* merge keys of incompatible dtypes,
                                        length mismatch on assignment *)
| MergeError                         (* the merge suffixes give two columns
                                        of one table the same label *)
| AttributeError.                    (* [.dt] on a non-datetimelike column *)

(** [Unmodelled] marks the inputs on which this development does not
    describe what pandas does: sums and means of columns with rows that
    are not numeric (pandas concatenates strings, averages timestamps or
    raises, depending on dtype and version), and merges on key columns of
    unlike dtypes where pandas decides by what it infers from the values. *)
Inductive outcome (A : Type) : Type :=
| Ok (a : A)
| Raise (e : Exn)
| Unmodelled.
Arguments Ok {A} a.
Arguments Raise {A} e.
Arguments Unmodelled {A}.

Definition obind {A B} (m : outcome A) (k : A → outcome B) : outcome B :=
  match m with
  | Ok a => k a
  | Raise e => Raise e
  | Unmodelled => Unmodelled
  end.

(** ** Columns *)

(** A pandas [Series] by dtype.  [int64] has no missing values; the other
    dtypes carry [None] for NaN / None / NaT.  Timestamps are nanoseconds
    since the epoch and monthly periods are months since 1970-01, the
    integers pandas stores. *)
Inductive Series : Type :=
| int64 (v : list Z)
| float64 (v : list (option Qc))
| object (v : list (option string))
| datetime64 (v : list (option Z))
| period_M (v : list (option Z)).

Definition series_len (s : Series) : nat :=
  match s with
  | int64 v => length v
  | float64 v => length v
  | object v => length v
  | datetime64 v => length v
  | period_M v => length v
  end.

(** One non-missing value of a column. *)
Inductive scalar : Type :=
| SInt (z : Z)
| SFloat (q : Qc)
| SStr (s : string)
| STime (t : Z)
| SPeriod (p : Z).

Global Instance scalar_eq_dec : EqDecision scalar.
Proof. solve_decision. Defined.

(** The cells of a column, top to bottom; [None] is a missing value. *)
Definition cells (s : Series) : list (option scalar) :=
  match s with
  | int64 v => (λ z, Some (SInt z)) <$> v
  | float64 v => (λ o : option Qc, SFloat <$> o) <$> v
  | object v => (λ o : option string, SStr <$> o) <$> v
  | datetime64 v => (λ o : option Z, STime <$> o) <$> v
  | period_M v => (λ o : option Z, SPeriod <$> o) <$> v
  end.

(** ** Data frames *)

(** A frame is its row count and its labelled columns, left to right.
    Labels are strings, except between [agg] and the assignment to
    [.columns], where they are (column, statistic) pairs.  A label is looked
    up from the left; [read_csv] never produces the same label twice. *)
Record Frame (L : Type) : Type := mkFrame {
  nrows : nat;
  columns : list (L * Series)
}.
Arguments mkFrame {L} nrows columns.
Arguments nrows {L} f.
Arguments columns {L} f.

Abbreviation DataFrame := (Frame string).

Definition labels {L} (df : Frame L) : list L := (columns df).*1.

Fixpoint assoc {L} `{EqDecision L} (c : L) (cols : list (L * Series))
  : option Series :=
  match cols with
  | [] => None
  | (c', s) :: rest => if decide (c' = c) then Some s else assoc c rest
  end.

Definition has_column (df : DataFrame) (c : string) : bool :=
  bool_decide (is_Some (assoc c (columns df))).

(** [df[c]] *)
Definition getitem (df : DataFrame) (c : string) : outcome Series :=
  match assoc c (columns df) with
  | Some s => Ok s
  | None => Raise (KeyError [c])
  end.

(** [df[[c1, ..., cn]]]: a new frame; the labels that do not exist are
    reported together. *)
Definition getitems (df : DataFrame) (cs : list string) : outcome DataFrame :=
  match filter (λ c, assoc c (columns df) = None) cs with
  | [] => Ok (mkFrame (nrows df)
                (omap (λ c, pair c <$> assoc c (columns df)) cs))
  | missing => Raise (KeyError missing)
  end.

Fixpoint replace_col (c : string) (s : Series) (cols : list (string * Series))
  : list (string * Series) :=
  match cols with
  | [] => [(c, s)]
  | (c', s') :: rest =>
      if decide (c' = c) then (c, s) :: rest
      else (c', s') :: replace_col c s rest
  end.

(** [df[c] = s], in place: an existing column keeps its position, a new
    one goes last. *)
Definition setitem (df : DataFrame) (c : string) (s : Series)
  : outcome DataFrame :=
  if decide (series_len s = nrows df)
  then Ok (mkFrame (nrows df) (replace_col c s (columns df)))
  else Raise ValueError.

(** [df.columns = names] *)
Definition set_columns {L} (df : Frame L) (names : list string)
  : outcome DataFrame :=
  if decide (length names = length (columns df))
  then Ok (mkFrame (nrows df) (zip names (columns df).*2))
  else Raise ValueError.

(** ** Grouping *)

(** Strings compare as Python's do, code unit by code unit. *)
Definition str_le (a b : string) : Prop := String.leb a b = true.

Global Instance str_le_dec : RelDecision str_le :=
  λ a b, decide (String.leb a b = true).

Section factorize.
Context {K : Type} `{EqDecision K} (R : relation K) `{!RelDecision R}.

(** The distinct non-missing keys in ascending order
    ([sort=True], [dropna=True]). *)
Definition uniques (keys : list (option K)) : list K :=
  merge_sort R (remove_dups (omap id keys)).

(** The group number of a key: its position among the sorted distinct
    keys; a missing key belongs to no group. *)
Definition code_in (u : list K) (k : option K) : option nat :=
  k ≫= λ k, fst <$> list_find (k =.) u.

Definition codes (keys : list (option K)) : list (option nat) :=
  code_in (uniques keys) <$> keys.

End factorize.

(** The grouper of a key column: one code per row and the index of the
    result, which keeps the key's dtype. *)
Definition factorize (s : Series) : list (option nat) * Series :=
  match s with
  | int64 v =>
      let keys := Some <$> v in
      (codes Z.le keys, int64 (uniques Z.le keys))
  | float64 v => (codes Qcle v, float64 (Some <$> uniques Qcle v))
  | object v => (codes str_le v, object (Some <$> uniques str_le v))
  | datetime64 v => (codes Z.le v, datetime64 (Some <$> uniques Z.le v))
  | period_M v => (codes Z.le v, period_M (Some <$> uniques Z.le v))
  end.

(** The values of the rows of group [g], in row order. *)
Definition group_values {V} (cs : list (option nat)) (values : list V)
    (g : nat) : list V :=
  (filter (λ cv, cv.1 = Some g) (zip cs values)).*2.

Definition per_group {A} (ngroups : nat) (f : nat → A) : list A :=
  f <$> seq 0 ngroups.

(** *** Reductions *)

Definition wrap64 (z : Z) : Z := (z + 2 ^ 63) `mod` 2 ^ 64 - 2 ^ 63.

Definition sum_int64 (l : list Z) : Z :=
  foldl (λ acc x, wrap64 (acc + x)) 0 l.

Definition notna {A} (l : list (option A)) : list A := omap id l.

(** Missing values are skipped; a group without values sums to zero. *)
Definition sum_float64 (l : list (option Qc)) : Qc :=
  foldl Qcplus 0%Qc (notna l).

Definition count_notna {A} (l : list (option A)) : Z :=
  Z.of_nat (length (notna l)).

(** The mean is taken over the values that are there; NaN when none is. *)
Definition mean_of (l : list Qc) : option Qc :=
  match l with
  | [] => None
  | _ => Some (foldl Qcplus 0 l / Qc_of_Z (Z.of_nat (length l)))%Qc
  end.

Definition mean_float64 (l : list (option Qc)) : option Qc :=
  mean_of (notna l).

(** Integers are converted to floats before they are averaged. *)
Definition mean_int64 (l : list Z) : option Qc := mean_of (Qc_of_Z <$> l).

Inductive how : Type := count | sum | mean.

Definition how_name (h : how) : string :=
  match h with count => "count" | sum => "sum" | mean => "mean" end.

(** A statistic of each group of a column.  An object column without
    rows, which is what [read_csv] makes of every column of a file that
    holds only its header line, is summed and averaged to a column without
    rows. *)
Definition reduce (h : how) (cs : list (option nat)) (ngroups : nat)
    (s : Series) : outcome Series :=
  match h, s with
  | count, _ =>
      Ok (int64 (per_group ngroups
                   (λ g, count_notna (group_values cs (cells s) g))))
  | sum, int64 v =>
      Ok (int64 (per_group ngroups (λ g, sum_int64 (group_values cs v g))))
  | sum, float64 v =>
      Ok (float64 (per_group ngroups
                     (λ g, Some (sum_float64 (group_values cs v g)))))
  | mean, int64 v =>
      Ok (float64 (per_group ngroups
                     (λ g, mean_int64 (group_values cs v g))))
  | mean, float64 v =>
      Ok (float64 (per_group ngroups
                     (λ g, mean_float64 (group_values cs v g))))
  | sum, object [] | mean, object [] =>
      if decide (ngroups = 0%nat) then Ok (object []) else Unmodelled
  | _, _ => Unmodelled
  end.

(** [df.groupby(key)]: the frame with the grouper of its key column. *)
Record GroupBy : Type := mkGroupBy {
  gb_frame : DataFrame;
  gb_key : string;
  gb_codes : list (option nat);
  gb_index : Series
}.

Definition groupby (df : DataFrame) (key : string) : outcome GroupBy :=
  obind (getitem df key) (λ k,
    let '(cs, idx) := factorize k in
    Ok (mkGroupBy df key cs idx)).

(** The result of an aggregation: one row per group, indexed by the
    group keys. *)
Record Aggregated : Type := mkAggregated {
  agg_index_name : string;
  agg_index : Series;
  agg_columns : list ((string * string) * Series)
}.

Fixpoint sequence {A} (l : list (outcome A)) : outcome (list A) :=
  match l with
  | [] => Ok []
  | m :: rest => obind m (λ a, obind (sequence rest) (λ r, Ok (a :: r)))
  end.

(** [.agg({column: statistics, ...})]: every column is looked up first,
    and those that do not exist are reported together, in sorted order;
    then each statistic is computed in the order it is written. *)
Definition agg (gb : GroupBy) (spec : list (string * list how))
  : outcome Aggregated :=
  match merge_sort str_le
          (filter (λ c, assoc c (columns (gb_frame gb)) = None) spec.*1) with
  | [] =>
      obind (sequence
               ('(c, hs) ← spec; h ← hs;
                [obind (getitem (gb_frame gb) c) (λ s,
                   obind (reduce h (gb_codes gb)
                            (series_len (gb_index gb)) s) (λ r,
                     Ok ((c, how_name h), r)))]))
        (λ cols, Ok (mkAggregated (gb_key gb) (gb_index gb) cols))
  | missing => Raise (KeyError missing)
  end.

(** [.reset_index()]: the group keys become the first column. *)
Definition reset_index (a : Aggregated) : Frame (string * string) :=
  mkFrame (series_len (agg_index a))
    (((agg_index_name a, EmptyString), agg_index a) :: agg_columns a).

(** ** Inner join *)

Inductive dtype_kind : Type := numeric | text | timestamps | periods.

Global Instance dtype_kind_eq_dec : EqDecision dtype_kind.
Proof. solve_decision. Defined.

Definition kind_of (s : Series) : dtype_kind :=
  match s with
  | int64 _ | float64 _ => numeric
  | object _ => text
  | datetime64 _ => timestamps
  | period_M _ => periods
  end.

Definition is_empty (s : Series) : bool :=
  bool_decide (series_len s = 0%nat).

(** An object column that holds at least one string. *)
Definition holds_string (s : Series) : bool :=
  match s with
  | object v => bool_decide (notna v ≠ [])
  | _ => false
  end.

(** What pandas makes of the two key columns of a merge.  When exactly
    one side has no rows the keys are accepted whatever their dtypes.
    Keys of one kind are accepted, integers with floats included.
    Strings on one side and numbers on the other are refused (You are
    trying to merge on object and int64 columns).  Of two columns without
    rows, an object and an int64 column are accepted.  For the mixtures
    that remain (a date on one side only, an object column with nothing
    but missing values against numbers, an object against a float64
    column when neither has rows) pandas decides by what it infers from
    the values; they are left undetermined. *)
Inductive verdict : Type := Mergeable | Refused | Undetermined.

Global Instance verdict_eq_dec : EqDecision verdict.
Proof. solve_decision. Defined.

Definition key_verdict (l r : Series) : verdict :=
  if xorb (is_empty l) (is_empty r) then Mergeable
  else if bool_decide (kind_of l = kind_of r) then Mergeable
  else
    match l, r with
    | object _, int64 _ | int64 _, object _ =>
        if holds_string l || holds_string r then Refused
        else if is_empty l then Mergeable
        else Undetermined
    | object _, float64 _ | float64 _, object _ =>
        if holds_string l || holds_string r then Refused else Undetermined
    | _, _ => Undetermined
    end.

(** Join keys are compared as values: an integer equals the float of the
    same value, and a missing key matches a missing key. *)
Inductive join_key : Type :=
| JNum (q : Qc)
| JStr (s : string)
| JTime (t : Z)
| JPeriod (p : Z).

Global Instance join_key_eq_dec : EqDecision join_key.
Proof. solve_decision. Defined.

Definition join_keys (s : Series) : list (option join_key) :=
  match s with
  | int64 v => (λ z, Some (JNum (Qc_of_Z z))) <$> v
  | float64 v => (λ o : option Qc, JNum <$> o) <$> v
  | object v => (λ o : option string, JStr <$> o) <$> v
  | datetime64 v => (λ o : option Z, JTime <$> o) <$> v
  | period_M v => (λ o : option Z, JPeriod <$> o) <$> v
  end.

(** The matching row pairs, in the order of the left rows. *)
Definition join_pairs (lk rk : list (option join_key)) : list (nat * nat) :=
  '(i, a) ← imap pair lk;
  '(j, b) ← imap pair rk;
  if decide (a = b) then [(i, j)] else [].

(** The rows at the given positions. *)
Definition take (idx : list nat) (s : Series) : Series :=
  match s with
  | int64 v => int64 (omap (λ i, v !! i) idx)
  | float64 v => float64 ((λ i, v !! i ≫= id) <$> idx)
  | object v => object ((λ i, v !! i ≫= id) <$> idx)
  | datetime64 v => datetime64 ((λ i, v !! i ≫= id) <$> idx)
  | period_M v => period_M ((λ i, v !! i ≫= id) <$> idx)
  end.

Definition suffixed (others : list string) (on sfx c : string) : string :=
  if decide (c ≠ on ∧ c ∈ others) then c +:+ sfx else c.

(** [Index.duplicated()]: the positions that repeat a label further
    left. *)
Fixpoint duplicated (seen l : list string) : list bool :=
  match l with
  | [] => []
  | c :: rest => bool_decide (c ∈ seen) :: duplicated (c :: seen) rest
  end.

(** The labels that the suffixes make collide within one table: those
    that, once renamed, repeat a label further left although they did not
    before. *)
Definition suffix_dups (old new : list string) : list string :=
  (filter (λ p, p.1 = (true, false))
     (zip (zip (duplicated [] new) (duplicated [] old)) new)).*2.

(** [pd.merge(left, right, on=key)]: an inner join.  The key column comes
    once, from the left; other labels that both sides have get the
    suffixes [_x] and [_y], and pandas 2 raises MergeError if that gives
    two columns of one side the same label. *)
Definition merge (left right : DataFrame) (on : string)
  : outcome DataFrame :=
  obind (getitem right on) (λ rk,
  obind (getitem left on) (λ lk,
    match key_verdict lk rk with
    | Mergeable =>
        let others := filter (λ p, p.1 ≠ on) (columns right) in
        let llabels := suffixed (labels right) on "_x" <$> labels left in
        let rlabels := suffixed (labels left) on "_y" <$> others.*1 in
        match suffix_dups (labels left) llabels
              ++ suffix_dups others.*1 rlabels with
        | [] =>
            let ps := join_pairs (join_keys lk) (join_keys rk) in
            Ok (mkFrame (length ps)
                  (zip llabels (take ps.*1 <$> (columns left).*2)
                   ++ zip rlabels (take ps.*2 <$> others.*2)))
        | _ => Raise MergeError
        end
    | Refused => Raise ValueError
    | Undetermined => Unmodelled
    end)).

(** ** The loaded tables *)

(** The three frames [load_data] returns.  The functions of the program
    receive references to these objects, not copies: a write through one
    reference is seen by every function called afterwards. *)
Inductive ref : Type := Customers | Products | Transactions.

Record Store : Type := mkStore {
  customers : DataFrame;
  products : DataFrame;
  transactions : DataFrame
}.

Definition deref (r : ref) (σ : Store) : DataFrame :=
  match r with
  | Customers => customers σ
  | Products => products σ
  | Transactions => transactions σ
  end.

Definition assign (r : ref) (df : DataFrame) (σ : Store) : Store :=
  match r with
  | Customers => mkStore df (products σ) (transactions σ)
  | Products => mkStore (customers σ) df (transactions σ)
  | Transactions => mkStore (customers σ) (products σ) df
  end.

(** A computation reads and writes the loaded tables and ends in an
    outcome. *)
Definition M (A : Type) : Type := Store → outcome (A * Store).

Definition ret {A} (a : A) : M A := λ σ, Ok (a, σ).

Definition bind {A B} (m : M A) (k : A → M B) : M B :=
  λ σ, obind (m σ) (λ '(a, σ'), k a σ').

Global Instance M_ret : MRet M := @ret.
Global Instance M_bind : MBind M := λ A B k m, bind m k.

Definition lift {A} (o : outcome A) : M A := λ σ, obind o (λ a, Ok (a, σ)).

(** The frame a reference points to, as it is now. *)
Definition read (r : ref) : M DataFrame := λ σ, Ok (deref r σ, σ).

(** [len(r)] *)
Definition len (r : ref) : M nat := df ← read r; mret (nrows df).

(** [r[c]] *)
Definition column (r : ref) (c : string) : M Series :=
  df ← read r; lift (getitem df c).

(** [r[c] = s] *)
Definition set_column (r : ref) (c : string) (s : Series) : M unit :=
  λ σ, obind (setitem (deref r σ) c s) (λ df, Ok (tt, assign r df σ)).

(** ** [analyze_customer_behavior] *)

Definition analyze_customer_behavior (customers_df transactions_df : ref)
  : M DataFrame :=
  (* Merge transactions with customer data *)
  left ← read transactions_df;
  right ← (df ← read customers_df; lift (getitems df ["CustomerID"; "Region"]));
  customer_transactions ← lift (merge left right "CustomerID");
  (* Calculate key metrics *)
  df ← read transactions_df;
  grouped ← lift (groupby df "CustomerID");
  aggregated ←
    lift (agg grouped [("TransactionID", [count]);
                       ("TotalValue", [sum; mean]);
                       ("Quantity", [sum])]);
  customer_metrics ←
    lift (set_columns (reset_index aggregated)
            ["CustomerID"; "total_transactions"; "total_spend";
             "avg_transaction_value"; "total_items"]);
  mret customer_metrics.

(** ** Calendar fields *)

Definition ns_per_day : Z := 86400000000000.

(** Year and month of a day number (days since 1970-01-01) in the
    proleptic Gregorian calendar. *)
Definition civil_from_days (days : Z) : Z * Z :=
  let z := days + 719468 in
  let era := z `div` 146097 in
  let doe := z - era * 146097 in
  let yoe := (doe - doe `div` 1460 + doe `div` 36524 - doe `div` 146096)
               `div` 365 in
  let doy := doe - (365 * yoe + yoe `div` 4 - yoe `div` 100) in
  let mp := (5 * doy + 2) `div` 153 in
  let m := if decide (mp < 10) then mp + 3 else mp - 9 in
  (yoe + era * 400 + (if decide (m ≤ 2) then 1 else 0), m).

Definition year_of_timestamp (t : Z) : Z :=
  (civil_from_days (t `div` ns_per_day)).1.
Definition month_of_timestamp (t : Z) : Z :=
  (civil_from_days (t `div` ns_per_day)).2.
Definition year_of_period (p : Z) : Z := 1970 + p `div` 12.
Definition month_of_period (p : Z) : Z := p `mod` 12 + 1.
Definition period_of_timestamp (t : Z) : Z :=
  (year_of_timestamp t - 1970) * 12 + (month_of_timestamp t - 1).

(** An integer field of a column of timestamps: integers when no value
    is missing, floats with NaN otherwise. *)
Definition int_field (v : list (option Z)) : Series :=
  match mapM id v with
  | Some zs => int64 zs
  | None => float64 ((λ o : option Z, Qc_of_Z <$> o) <$> v)
  end.

(** [s.dt.year]; the field of a missing period is -1. *)
Definition dt_year (s : Series) : outcome Series :=
  match s with
  | datetime64 v =>
      Ok (int_field ((λ o : option Z, year_of_timestamp <$> o) <$> v))
  | period_M v => Ok (int64 (from_option year_of_period (-1) <$> v))
  | _ => Raise AttributeError
  end.

(** [s.dt.month] *)
Definition dt_month (s : Series) : outcome Series :=
  match s with
  | datetime64 v =>
      Ok (int_field ((λ o : option Z, month_of_timestamp <$> o) <$> v))
  | period_M v => Ok (int64 (from_option month_of_period (-1) <$> v))
  | _ => Raise AttributeError
  end.

(** [s.dt.to_period('M')], which only timestamps have. *)
Definition dt_to_period_M (s : Series) : outcome Series :=
  match s with
  | datetime64 v =>
      Ok (period_M ((λ o : option Z, period_of_timestamp <$> o) <$> v))
  | _ => Raise AttributeError
  end.

(** ** [perform_eda] *)

(** [s.sum()] and [s.mean()] of a whole column. *)
Definition series_sum (s : Series) : outcome scalar :=
  match s with
  | int64 v => Ok (SInt (sum_int64 v))
  | float64 v => Ok (SFloat (sum_float64 v))
  | _ => Unmodelled
  end.

Definition series_mean (s : Series) : outcome (option Qc) :=
  match s with
  | int64 v => Ok (mean_int64 v)
  | float64 v => Ok (mean_float64 v)
  | _ => Unmodelled
  end.

(** [df.groupby(key)[c].sum()]: the group keys and the sums. *)
Definition groupby_sum (df : DataFrame) (key c : string)
  : outcome (Series * Series) :=
  obind (groupby df key) (λ gb,
  obind (getitem df c) (λ s,
  obind (reduce sum (gb_codes gb) (series_len (gb_index gb)) s) (λ r,
    Ok (gb_index gb, r)))).

(** [s.value_counts().sort_index()]: the distinct values in ascending
    order and how often each occurs. *)
Definition value_counts_sorted (s : Series) : Series * Series :=
  let '(cs, idx) := factorize s in
  (idx, int64 (per_group (series_len idx)
                 (λ g, count_notna (group_values cs (cells s) g)))).

(** The summaries [perform_eda] returns.  The frequency tables ordered by
    count ([value_counts()]) and the price quantiles ([describe()]) are
    not represented; their columns are still looked up where the source
    does. *)
Record CustomerMetrics : Type := mkCustomerMetrics {
  total_customers : nat;
  signup_trends : Series * Series
}.

Record ProductMetrics : Type := mkProductMetrics {
  total_products : nat
}.

Record TransactionMetrics : Type := mkTransactionMetrics {
  total_transactions : nat;
  total_revenue : scalar;
  avg_transaction_value : option Qc;
  revenue_by_year : Series * Series
}.

Definition perform_eda (customers_df products_df transactions_df : ref)
  : M (CustomerMetrics * ProductMetrics * TransactionMetrics) :=
  (* Customer analysis *)
  total_customers ← len customers_df;
  region ← column customers_df "Region";
  signup ← column customers_df "SignupDate";
  signup_year ← lift (dt_year signup);
  let customer_metrics :=
    mkCustomerMetrics total_customers (value_counts_sorted signup_year) in
  (* Product analysis *)
  total_products ← len products_df;
  category ← column products_df "Category";
  price ← column products_df "Price";
  let product_metrics := mkProductMetrics total_products in
  (* Transaction analysis *)
  date ← column transactions_df "TransactionDate";
  year ← lift (dt_year date);
  set_column transactions_df "Year" year;;
  date ← column transactions_df "TransactionDate";
  month ← lift (dt_month date);
  set_column transactions_df "Month" month;;
  total_transactions ← len transactions_df;
  total_value ← column transactions_df "TotalValue";
  total_revenue ← lift (series_sum total_value);
  total_value ← column transactions_df "TotalValue";
  avg_transaction_value ← lift (series_mean total_value);
  df ← read transactions_df;
  revenue_by_year ← lift (groupby_sum df "Year" "TotalValue");
  mret (customer_metrics, product_metrics,
        mkTransactionMetrics total_transactions total_revenue
          avg_transaction_value revenue_by_year).

(** ** [generate_visualizations] *)

(** seaborn refuses a name that is not a column of [data]. *)
Definition plotted (r : ref) (x : string) : M unit :=
  df ← read r;
  if has_column df x then mret tt else lift (Raise ValueError).

(** Drawing and saving the figures is not modelled; what is kept is what
    the function reads from and writes to the loaded tables. *)
Definition generate_visualizations
    (customers_df products_df transactions_df : ref) : M unit :=
  (* 1. Customer distribution by region *)
  plotted customers_df "Region";;
  (* 2. Product price distribution *)
  plotted products_df "Price";;
  (* 3. Transaction value over time *)
  date ← column transactions_df "TransactionDate";
  year_month ← lift (dt_to_period_M date);
  set_column transactions_df "YearMonth" year_month;;
  df ← read transactions_df;
  monthly_revenue ← lift (groupby_sum df "YearMonth" "TotalValue");
  mret tt.

(** ** [main] *)

Record Results : Type := mkResults {
  res_customer_metrics : CustomerMetrics;
  res_product_metrics : ProductMetrics;
  res_transaction_metrics : TransactionMetrics;
  res_customer_behavior : DataFrame
}.

(** The run after [load_data]: the store holds the three tables it
    returned.  Writing the result to [customer_behavior_analysis.csv] is
    not modelled. *)
Definition main : M Results :=
  '(customer_metrics, product_metrics, transaction_metrics) ←
    perform_eda Customers Products Transactions;
  generate_visualizations Customers Products Transactions;;
  customer_behavior ← analyze_customer_behavior Customers Transactions;
  mret (mkResults customer_metrics product_metrics transaction_metrics
          customer_behavior).

(** ** Vocabulary of the specification *)

(** What a computation returns, without the store it leaves. *)
Definition result {A} (o : outcome (A * Store)) : outcome A :=
  obind o (λ '(a, _), Ok a).

(** The cells of the column labelled [c]; none if there is no such
    column. *)
Definition col (df : DataFrame) (c : string) : list (option scalar) :=
  from_option cells [] (assoc c (columns df)).

(** The cell in row [i] of column [c]. *)
Definition cell (df : DataFrame) (c : string) (i : nat) : option (option scalar) :=
  col df c !! i.

(** The second half of [analyze_customer_behavior], which computes the
    table it returns. *)
Definition aggregate (t : DataFrame) : outcome DataFrame :=
  obind (groupby t "CustomerID") (λ grouped,
  obind (agg grouped [("TransactionID", [count]);
                      ("TotalValue", [sum; mean]);
                      ("Quantity", [sum])]) (λ aggregated,
    set_columns (reset_index aggregated)
      ["CustomerID"; "total_transactions"; "total_spend";
       "avg_transaction_value"; "total_items"])).

(** Its first half, the join whose result is dropped. *)
Definition joined (c t : DataFrame) : outcome DataFrame :=
  obind (getitems c ["CustomerID"; "Region"]) (λ right,
    merge t right "CustomerID").

(** The distinct non-null customer identifiers of a transaction table. *)
Definition customer_ids (t : DataFrame) : list scalar :=
  remove_dups (notna (col t "CustomerID")).

(** The values a column has in the transactions of customer [k]. *)
Definition customer_rows {V} (t : DataFrame) (k : scalar) (values : list V)
  : list V :=
  (filter (λ kv, kv.1 = Some k) (zip (col t "CustomerID") values)).*2.

Definition total_Z (l : list Z) : Z := foldr Z.add 0 l.
Definition total_Qc (l : list Qc) : Qc := foldr Qcplus 0%Qc l.

(** The sum of column [c] over the transactions of customer [k], of the
    values present for a float column. *)
Definition total_of (t : DataFrame) (c : string) (k : scalar)
  : option scalar :=
  match assoc c (columns t) with
  | Some (int64 v) => Some (SInt (total_Z (customer_rows t k v)))
  | Some (float64 v) =>
      Some (SFloat (total_Qc (notna (customer_rows t k v))))
  | _ => None
  end.


Definition wrapped (s : scalar) : scalar :=
  match s with
  | SInt z => SInt (wrap64 z)
  | _ => s
  end.

(** The mean of column [c] over the transactions of customer [k] that
    have a value there; none (NaN) if no transaction has. *)
Definition average_of (t : DataFrame) (c : string) (k : scalar)
  : option Qc :=
  match assoc c (columns t) with
  | Some (int64 v) => mean_of (Qc_of_Z <$> customer_rows t k v)
  | Some (float64 v) => mean_of (notna (customer_rows t k v))
  | _ => None
  end.

(** How many transactions of customer [k] have a value in column [c]. *)
Definition count_of (t : DataFrame) (c : string) (k : scalar) : Z :=
  Z.of_nat (length (notna (customer_rows t k (col t c)))).

(** Ascending order within a dtype. *)
Definition scalar_le (a b : scalar) : Prop :=
  match a, b with
  | SInt x, SInt y => x ≤ y
  | SFloat x, SFloat y => (x ≤ y)%Qc
  | SStr x, SStr y => str_le x y
  | STime x, STime y => x ≤ y
  | SPeriod x, SPeriod y => x ≤ y
  | _, _ => False
  end.

(** Relative tolerance 1e-9. *)
Definition close (a b : Qc) : Prop :=
  (Qcabs (a - b) ≤ Q2Qc (1 # 1000000000) * Qcabs b)%Qc.

(** The value of a numeric cell. *)
Definition number (s : scalar) : option Qc :=
  match s with
  | SInt z => Some (Qc_of_Z z)
  | SFloat q => Some q
  | _ => None
  end.

(** Row [i] of a behaviour table satisfies the mean invariant: when it
    counts at least one transaction, its average times its count is its
    total spend, up to the tolerance. *)
Definition mean_invariant (out : DataFrame) (i : nat) : Prop :=
  ∀ n, cell out "total_transactions" i = Some (Some (SInt n)) → 0 < n →
    ∃ a x s, cell out "avg_transaction_value" i = Some (Some (SFloat a)) ∧
             cell out "total_spend" i = Some (Some x) ∧ number x = Some s ∧
             close (a * Qc_of_Z n) s.

(** Row [g] of a behaviour table is the row of customer [k]. *)
Definition row_of (out : DataFrame) (g : nat) (k : scalar) : Prop :=
  cell out "CustomerID" g = Some (Some k).

(** The rows of [out] are the customers of [t]: every row is the row of a
    customer identifier present in [t], and every customer identifier
    present in [t] has a row. *)
Definition rows_are_customers (t out : DataFrame) : Prop :=
  (∀ g, (g < nrows out)%nat →
        ∃ k, row_of out g k ∧ Some k ∈ col t "CustomerID")
  ∧ (∀ k, Some k ∈ col t "CustomerID" →
          ∃ g, (g < nrows out)%nat ∧ row_of out g k).

(** The integers that customer [k] has in column [c] add up, in absolute
    value, to at most 2^53: a double holds each of them and each of their
    partial sums exactly.  Nothing is asked of a float column. *)
Definition exact_in_double (t : DataFrame) (c : string) (k : scalar) : Prop :=
  match assoc c (columns t) with
  | Some (int64 v) => total_Z (Z.abs <$> customer_rows t k v) ≤ 2 ^ 53
  | _ => True
  end.

(** *** Well-formed inputs *)

(** Every column has as many cells as the frame has rows. *)
Definition wf_frame (df : DataFrame) : bool :=
  forallb (λ p, bool_decide (series_len p.2 = nrows df)) (columns df).

Definition unique_labels (df : DataFrame) : bool :=
  bool_decide (NoDup (labels df)).

(** The customer and transaction tables are as [read_csv] returns tables:
    every column as long as the table, no label twice. *)
Definition well_formed (σ : Store) : bool :=
  wf_frame (customers σ) && wf_frame (transactions σ)
  && unique_labels (customers σ) && unique_labels (transactions σ).

Definition column_is (P : Series → bool) (df : DataFrame) (c : string)
  : bool :=
  match assoc c (columns df) with
  | Some s => P s
  | None => true
  end.

Definition is_numeric (s : Series) : bool :=
  bool_decide (kind_of s = numeric).

(** The columns [analyze_customer_behavior] names. *)
Definition required_columns (c t : DataFrame) : bool :=
  has_column c "CustomerID" && has_column c "Region"
  && has_column t "CustomerID" && has_column t "TransactionID"
  && has_column t "TotalValue" && has_column t "Quantity".

(** pandas refuses to merge the customer identifiers of the two tables:
    both tables have rows, and one holds strings where the other holds
    numbers. *)
Definition keys_refused (c t : DataFrame) : bool :=
  match assoc "CustomerID" (columns c), assoc "CustomerID" (columns t) with
  | Some kc, Some kt => bool_decide (key_verdict kt kc = Refused)
  | _, _ => false
  end.

(** The transaction table has a Region column, which the merge with the
    customer table's Region renames to Region_x, and a Region_x column
    already. *)
Definition label_clash (t : DataFrame) : bool :=
  has_column t "Region" && has_column t "Region_x".

(** The development says what the outcome is. *)
Definition modelled {A} (o : outcome A) : bool :=
  match o with
  | Unmodelled => false
  | _ => true
  end.

(** Tables for which it always does: the amounts are numbers, or object
    columns without rows, and pandas decides on the merge of the customer
    identifiers by their dtypes. *)
Definition is_amount (s : Series) : bool :=
  match s with
  | int64 _ | float64 _ | object [] => true
  | _ => false
  end.

Definition described (σ : Store) : bool :=
  column_is is_amount (transactions σ) "TotalValue"
  && column_is is_amount (transactions σ) "Quantity"
  && match assoc "CustomerID" (columns (customers σ)),
           assoc "CustomerID" (columns (transactions σ)) with
     | Some kc, Some kt => bool_decide (key_verdict kt kc ≠ Undetermined)
     | _, _ => true
     end.

(** Two customer tables whose CustomerID columns have the same dtype, and
    both have rows or neither has, and both hold a value or neither
    does. *)
Definition same_dtype (a b : Series) : bool :=
  match a, b with
  | int64 _, int64 _ | float64 _, float64 _ | object _, object _
  | datetime64 _, datetime64 _ | period_M _, period_M _ => true
  | _, _ => false
  end.

Definition same_key_shape (c1 c2 : DataFrame) : bool :=
  match assoc "CustomerID" (columns c1), assoc "CustomerID" (columns c2) with
  | Some k1, Some k2 =>
      same_dtype k1 k2
      && bool_decide (is_empty k1 = is_empty k2)
      && bool_decide (holds_string k1 = holds_string k2)
  | _, _ => false
  end.

(** The labels of the transaction table that collide when it is merged
    with the CustomerID and Region columns of the customer table. *)
Definition merge_dups (t : DataFrame) : list string :=
  suffix_dups (labels t)
    (suffixed ["CustomerID"; "Region"] "CustomerID" "_x" <$> labels t).

(** *** Claims as the specification words them *)

(** The aggregator produces a table with as many rows as the transaction
    table has distinct non-null customer identifiers. *)
Definition one_row_per_customer_id (σ : Store) : Prop :=
  ∃ out σ',
    analyze_customer_behavior Customers Transactions σ = Ok (out, σ')
    ∧ nrows out = length (customer_ids (transactions σ)).

(** For a transaction table without rows the aggregator returns a table
    with the five headers and no rows. *)
Definition empty_gives_empty (σ : Store) : Prop :=
  nrows (transactions σ) = 0%nat →
  ∃ out σ',
    analyze_customer_behavior Customers Transactions σ = Ok (out, σ')
    ∧ labels out = ["CustomerID"; "total_transactions"; "total_spend";
                    "avg_transaction_value"; "total_items"]
    ∧ nrows out = 0%nat.

(** The aggregator fails exactly when the transaction table lacks the
    customer identifier, the total value or the quantity. *)
Definition fails_iff_transaction_fields_missing (σ : Store) : Prop :=
  (∃ e, analyze_customer_behavior Customers Transactions σ = Raise e)
  ↔ has_column (transactions σ) "CustomerID"
    && has_column (transactions σ) "TotalValue"
    && has_column (transactions σ) "Quantity" = false.

(** The run up to the call of [analyze_customer_behavior]. *)
Definition before_analysis
  : M (CustomerMetrics * ProductMetrics * TransactionMetrics) :=
  metrics ← perform_eda Customers Products Transactions;
  generate_visualizations Customers Products Transactions;;
  mret metrics.

(** The output is the same for any two customer tables that have the
    required columns. *)
Definition independent_of_customers (c1 c2 p t : DataFrame) : Prop :=
  has_column c1 "CustomerID" && has_column c1 "Region" = true →
  has_column c2 "CustomerID" && has_column c2 "Region" = true →
  result (analyze_customer_behavior Customers Transactions (mkStore c1 p t))
  = result (analyze_customer_behavior Customers Transactions (mkStore c2 p t)).

(** The run leaves the customer and product tables alone and adds to the
    transaction table exactly the two columns Year and Month. *)
Definition only_year_and_month_added (σ σ' : Store) : Prop :=
  customers σ' = customers σ ∧ products σ' = products σ ∧
  nrows (transactions σ') = nrows (transactions σ) ∧
  ∃ year month,
    columns (transactions σ')
    = columns (transactions σ) ++ [("Year", year); ("Month", month)].

(** Running the aggregator twice in a row. *)
Definition twice : M (DataFrame * DataFrame) :=
  first ← analyze_customer_behavior Customers Transactions;
  second ← analyze_customer_behavior Customers Transactions;
  mret (first, second).

(** The three columns the run writes to the transaction table. *)
Definition calendar_columns (date : Series) (cols : list (string * Series))
  : outcome (list (string * Series)) :=
  obind (dt_year date) (λ year,
  obind (dt_month date) (λ month,
  obind (dt_to_period_M date) (λ year_month,
    Ok (replace_col "YearMonth" year_month
          (replace_col "Month" month (replace_col "Year" year cols)))))).

(** ** Sample tables *)

Definition amount (n : Z) : option Qc := Some (Qc_of_Z n).
Definition at_day (d : Z) : option Z := Some (d * ns_per_day).

Definition sample_customers : DataFrame :=
  mkFrame 2
    [("CustomerID", object [Some "C1"; Some "C2"]);
     ("Region", object [Some "Asia"; Some "Europe"]);
     ("SignupDate", datetime64 [at_day 19000; at_day 19400])].

Definition sample_products : DataFrame :=
  mkFrame 1
    [("ProductID", object [Some "P1"]);
     ("Category", object [Some "Books"]);
     ("Price", float64 [amount 5])].

(** Three transactions of two customers; 19782 is 2024-02-29. *)
Definition sample_transactions : DataFrame :=
  mkFrame 3
    [("TransactionID", object [Some "T1"; Some "T2"; Some "T3"]);
     ("CustomerID", object [Some "C2"; Some "C1"; Some "C2"]);
     ("ProductID", object [Some "P1"; Some "P1"; Some "P1"]);
     ("Quantity", int64 [2; 1; 3]);
     ("TotalValue", float64 [amount 20; amount 5; amount 30]);
     ("TransactionDate",
      datetime64 [at_day 19782; at_day 19783; at_day 20088])].

Definition sample : Store :=
  mkStore sample_customers sample_products sample_transactions.

(** A transaction table with its header and no rows. *)
Definition empty_transactions : DataFrame :=
  mkFrame 0
    [("TransactionID", object []);
     ("CustomerID", object []);
     ("ProductID", object []);
     ("Quantity", int64 []);
     ("TotalValue", float64 []);
     ("TransactionDate", datetime64 [])].

Definition sample_empty : Store :=
  mkStore sample_customers sample_products empty_transactions.

(** The transaction table that [load_data] makes of a file with only its
    header line: [read_csv] gives every column the dtype object, and
    [to_datetime] turns TransactionDate into timestamps. *)
Definition header_only_transactions : DataFrame :=
  mkFrame 0
    [("TransactionID", object []);
     ("CustomerID", object []);
     ("ProductID", object []);
     ("Quantity", object []);
     ("TotalValue", object []);
     ("TransactionDate", datetime64 [])].

Definition sample_header_only : Store :=
  mkStore sample_customers sample_products header_only_transactions.

(** A transaction table without rows that has, besides its six columns,
    a Region and a Region_x column. *)
Definition clashing_transactions : DataFrame :=
  mkFrame 0
    [("TransactionID", object []);
     ("CustomerID", object []);
     ("ProductID", object []);
     ("Quantity", int64 []);
     ("TotalValue", float64 []);
     ("TransactionDate", datetime64 []);
     ("Region", object []);
     ("Region_x", object [])].

Definition sample_clashing : Store :=
  mkStore sample_customers sample_products clashing_transactions.

(** Customer C1 has two transactions; the total of the second one and the
    identifier of the third row are missing. *)
Definition transactions_with_gaps : DataFrame :=
  mkFrame 3
    [("TransactionID", object [Some "T1"; Some "T2"; None]);
     ("CustomerID", object [Some "C1"; Some "C1"; Some "C2"]);
     ("ProductID", object [Some "P1"; Some "P1"; Some "P1"]);
     ("Quantity", int64 [1; 1; 4]);
     ("TotalValue", float64 [amount 10; None; amount 7]);
     ("TransactionDate",
      datetime64 [at_day 19782; at_day 19783; at_day 20088])].

Definition sample_with_gaps : Store :=
  mkStore sample_customers sample_products transactions_with_gaps.

(** A transaction table without the TransactionID column. *)
Definition transactions_without_id : DataFrame :=
  mkFrame 1
    [("CustomerID", object [Some "C1"]);
     ("Quantity", int64 [1]);
     ("TotalValue", float64 [amount 10])].

Definition sample_without_id : Store :=
  mkStore sample_customers sample_products transactions_without_id.

(** The sample transactions without the Quantity column. *)
Definition transactions_without_quantity : DataFrame :=
  mkFrame 3
    [("TransactionID", object [Some "T1"; Some "T2"; Some "T3"]);
     ("CustomerID", object [Some "C2"; Some "C1"; Some "C2"]);
     ("ProductID", object [Some "P1"; Some "P1"; Some "P1"]);
     ("TotalValue", float64 [amount 20; amount 5; amount 30]);
     ("TransactionDate",
      datetime64 [at_day 19782; at_day 19783; at_day 20088])].

Definition sample_without_quantity : Store :=
  mkStore sample_customers sample_products transactions_without_quantity.

(** The sample transactions with whole amounts, which [read_csv] reads as
    integers. *)
Definition whole_transactions : DataFrame :=
  mkFrame 3
    [("TransactionID", object [Some "T1"; Some "T2"; Some "T3"]);
     ("CustomerID", object [Some "C2"; Some "C1"; Some "C2"]);
     ("ProductID", object [Some "P1"; Some "P1"; Some "P1"]);
     ("Quantity", int64 [2; 1; 3]);
     ("TotalValue", int64 [20; 5; 30]);
     ("TransactionDate",
      datetime64 [at_day 19782; at_day 19783; at_day 20088])].

Definition sample_whole : Store :=
  mkStore sample_customers sample_products whole_transactions.

(** A customer table that knows none of the customers of
    [sample_transactions]. *)
Definition other_customers : DataFrame :=
  mkFrame 1
    [("CustomerID", object [Some "C9"]);
     ("Region", object [Some "Africa"])].

(** A customer table whose identifiers are integers. *)
Definition numbered_customers : DataFrame :=
  mkFrame 2
    [("CustomerID", int64 [1; 2]);
     ("Region", object [Some "Asia"; Some "Europe"])].

(** The scenario of the specification: customer 1 buys twice, customer 2
    once. *)
Definition scenario_transactions : DataFrame :=
  mkFrame 3
    [("TransactionID", object [Some "T1"; Some "T2"; Some "T3"]);
     ("CustomerID", int64 [1; 1; 2]);
     ("Quantity", int64 [2; 1; 3]);
     ("TotalValue", float64 [amount 20; amount 5; amount 30])].

Definition scenario : Store :=
  mkStore numbered_customers sample_products scenario_transactions.

(** ** Vocabulary for the rest of the run *)

(** Columns that have the [.dt] accessor, and those that have
    [.dt.to_period]. *)
Definition is_datetimelike (s : Series) : bool :=
  match s with
  | datetime64 _ | period_M _ => true
  | _ => false
  end.

Definition is_timestamps (s : Series) : bool :=
  match s with
  | datetime64 _ => true
  | _ => false
  end.

(** What [perform_eda] asks of the loaded tables: the columns it names,
    dates where it takes the year, numbers where it sums. *)
Definition eda_ok (σ : Store) : bool :=
  has_column (customers σ) "Region"
  && has_column (customers σ) "SignupDate"
  && column_is is_datetimelike (customers σ) "SignupDate"
  && has_column (products σ) "Category"
  && has_column (products σ) "Price"
  && has_column (transactions σ) "TransactionDate"
  && column_is is_datetimelike (transactions σ) "TransactionDate"
  && has_column (transactions σ) "TotalValue"
  && column_is is_numeric (transactions σ) "TotalValue".



(** No cell of the column is missing. *)
Definition all_present (s : Series) : bool :=
  forallb (λ c : option scalar, bool_decide (is_Some c)) (cells s).

(** * Proofs *)

(** ** The model on concrete inputs *)

(** Equality of computed tables: two rationals are equal when their
    reduced fractions are. *)
Ltac qc_cells :=
  vm_compute;
  repeat first
    [ reflexivity
    | match goal with |- @eq Qc _ _ => apply Qc_is_canon; reflexivity end
    | f_equal ].

Example scenario_output :
  ∃ out,
    analyze_customer_behavior Customers Transactions scenario
    = Ok (out, scenario)
    ∧ col out "CustomerID" = [Some (SInt 1); Some (SInt 2)]
    ∧ col out "total_transactions" = [Some (SInt 2); Some (SInt 1)]
    ∧ col out "total_spend"
      = [Some (SFloat (Qc_of_Z 25)); Some (SFloat (Qc_of_Z 30))]
    ∧ col out "avg_transaction_value"
      = [Some (SFloat (Q2Qc (25 # 2))); Some (SFloat (Qc_of_Z 30))]
    ∧ col out "total_items" = [Some (SInt 3); Some (SInt 3)].
Proof.
  eexists. split; [vm_compute; reflexivity|]. split_and!; qc_cells.
Qed.

Example missing_values_are_skipped :
  ∃ out,
    analyze_customer_behavior Customers Transactions sample_with_gaps
    = Ok (out, sample_with_gaps)
    ∧ col out "CustomerID" = [Some (SStr "C1"); Some (SStr "C2")]
    ∧ col out "total_transactions" = [Some (SInt 2); Some (SInt 0)]
    ∧ col out "total_spend"
      = [Some (SFloat (Qc_of_Z 10)); Some (SFloat (Qc_of_Z 7))]
    ∧ col out "avg_transaction_value"
      = [Some (SFloat (Qc_of_Z 10)); Some (SFloat (Qc_of_Z 7))]
    ∧ col out "total_items" = [Some (SInt 2); Some (SInt 4)].
Proof.
  eexists. split; [vm_compute; reflexivity|]. split_and!; qc_cells.
Qed.

Example int64_sum_wraps : sum_int64 [2 ^ 62; 2 ^ 62] = - 2 ^ 63.
Proof. reflexivity. Qed.

Example leap_day :
  civil_from_days 19782 = (2024, 2) ∧ civil_from_days 19783 = (2024, 3)
  ∧ civil_from_days 0 = (1970, 1) ∧ civil_from_days (-1) = (1969, 12).
Proof. by vm_compute. Qed.

Example keys_of_unlike_kinds_do_not_merge :
  merge sample_transactions numbered_customers "CustomerID"
  = Raise ValueError.
Proof. reflexivity. Qed.

Example empty_keys_of_unlike_kinds_merge :
  key_verdict (object []) (int64 []) = Mergeable
  ∧ key_verdict (object []) (int64 [1; 2]) = Mergeable
  ∧ key_verdict (object [Some "C1"]) (int64 []) = Mergeable.
Proof. done. Qed.

Example suffixes_must_not_collide :
  joined sample_customers clashing_transactions = Raise MergeError.
Proof. reflexivity. Qed.

Example header_only_file :
  ∃ out,
    analyze_customer_behavior Customers Transactions sample_header_only
    = Ok (out, sample_header_only)
    ∧ labels out = ["CustomerID"; "total_transactions"; "total_spend";
                    "avg_transaction_value"; "total_items"]
    ∧ nrows out = 0%nat.
Proof. eexists. split; [vm_compute; reflexivity|]. done. Qed.

Example table_without_rows :
  ∃ out,
    analyze_customer_behavior Customers Transactions sample_empty
    = Ok (out, sample_empty)
    ∧ columns out
      = [("CustomerID", object []); ("total_transactions", int64 []);
         ("total_spend", float64 []); ("avg_transaction_value", float64 []);
         ("total_items", int64 [])].
Proof. eexists. split; [vm_compute; reflexivity|]. done. Qed.

Example missing_columns_are_reported_in_order :
  aggregate (mkFrame 1 [("CustomerID", object [Some "C1"]);
                        ("TotalValue", float64 [amount 10])])
  = Raise (KeyError ["Quantity"; "TransactionID"]).
Proof. reflexivity. Qed.

Example year_of_a_missing_period :
  dt_year (period_M [Some 0; None]) = Ok (int64 [1970; -1])
  ∧ dt_year (datetime64 [Some 0; None])
    = Ok (float64 [Some (Qc_of_Z 1970); None]).
Proof. split; [reflexivity|]. qc_cells. Qed.

(** ** The order on strings *)

Lemma ascii_compare_refl a : Ascii.compare a a = Eq.
Proof. unfold Ascii.compare. apply N.compare_refl. Qed.

Lemma ascii_compare_Lt_trans a b c :
  Ascii.compare a b = Lt → Ascii.compare b c = Lt → Ascii.compare a c = Lt.
Proof.
  unfold Ascii.compare. rewrite !N.compare_lt_iff. apply N.lt_trans.
Qed.

Lemma string_compare_Lt_trans a : ∀ b c,
  String.compare a b = Lt → String.compare b c = Lt → String.compare a c = Lt.
Proof.
  induction a as [|x a IH]; intros [|y b] [|z c]; simpl; try done.
  destruct (Ascii.compare x y) eqn:Hxy; try done.
  - apply Ascii.compare_eq_iff in Hxy as ->.
    destruct (Ascii.compare y z); try done. apply IH.
  - destruct (Ascii.compare y z) eqn:Hyz; try done.
    + apply Ascii.compare_eq_iff in Hyz as <-. by rewrite Hxy.
    + by rewrite (ascii_compare_Lt_trans _ _ _ Hxy Hyz).
Qed.

Lemma str_le_alt a b : str_le a b ↔ a = b ∨ String.compare a b = Lt.
Proof.
  unfold str_le, String.leb. destruct (String.compare a b) eqn:Hc.
  - apply String.compare_eq_iff in Hc. naive_solver.
  - naive_solver.
  - split; [done|]. intros [->|?]; [|done].
    assert (String.compare b b = Eq) as Hr.
    { clear Hc. induction b as [|x b IH]; simpl; [done|].
      by rewrite ascii_compare_refl. }
    congruence.
Qed.

Global Instance str_le_total : Total str_le.
Proof. intros a b. apply String.leb_total. Qed.

Global Instance str_le_trans : Transitive str_le.
Proof.
  intros a b c. rewrite !str_le_alt. intros [->|Hab] [->|Hbc]; eauto.
  right. by eapply string_compare_Lt_trans.
Qed.

(** ** Grouping *)

Section factorize_correct.
Context {K : Type} `{EqDecision K} (R : relation K) `{!RelDecision R}.
Context `{!Total R} `{!Transitive R}.
Implicit Types keys : list (option K).

Lemma notna_elem {A} (l : list (option A)) x : x ∈ notna l ↔ Some x ∈ l.
Proof.
  unfold notna. rewrite list_elem_of_omap. split.
  - by intros ([y|] & ? & [= <-]).
  - intros ?. by exists (Some x).
Qed.

Lemma uniques_Permutation keys : uniques R keys ≡ₚ remove_dups (notna keys).
Proof. apply merge_sort_Permutation. Qed.

Lemma uniques_elem keys x : x ∈ uniques R keys ↔ Some x ∈ keys.
Proof. by rewrite uniques_Permutation, elem_of_remove_dups, notna_elem. Qed.

Lemma uniques_NoDup keys : NoDup (uniques R keys).
Proof. rewrite uniques_Permutation. apply NoDup_remove_dups. Qed.

Lemma uniques_sorted keys : StronglySorted R (uniques R keys).
Proof. by apply StronglySorted_merge_sort. Qed.

Lemma code_in_Some (u : list K) k g :
  NoDup u → code_in u (Some k) = Some g ↔ u !! g = Some k.
Proof.
  intros Hu. unfold code_in. simpl. rewrite fmap_Some. split.
  - intros ([i x] & (? & -> & _)%list_find_Some & ->). done.
  - intros Hg. exists (g, k). split; [|done].
    apply list_find_Some. split_and!; [done..|].
    intros j y Hj Hlt ->. pose proof (NoDup_lookup _ _ _ _ Hu Hj Hg). lia.
Qed.

Lemma group_values_code_in {V} (u : list K) g k keys (values : list V) :
  NoDup u → u !! g = Some k →
  group_values (code_in u <$> keys) values g
  = (filter (λ kv, kv.1 = Some k) (zip keys values)).*2.
Proof.
  intros Hu Hg. unfold group_values. revert values.
  induction keys as [|key keys IH]; intros [|x values]; try done.
  csimpl. rewrite !filter_cons. simpl.
  assert (code_in u key = Some g ↔ key = Some k) as Hiff.
  { destruct key as [k'|]; [|done].
    rewrite code_in_Some by done. naive_solver. }
  destruct (decide (code_in u key = Some g)) as [Hc|Hc],
    (decide (key = Some k)) as [Hk|Hk]; csimpl; rewrite ?IH; try done.
  - by apply Hiff in Hc.
  - by apply Hiff in Hk.
Qed.

End factorize_correct.

Section factorize_cells.
Context {K : Type} `{EqDecision K} (R : relation K) `{!RelDecision R}.
Context `{!Total R} `{!Transitive R}.
Context (f : K → scalar) `{!Inj (=) (=) f}.
Context (f_mono : ∀ x y, R x y → scalar_le (f x) (f y)).

Lemma filter_zip_inj {V} (keys : list (option K)) (values : list V) k :
  (filter (λ kv, kv.1 = Some (f k))
     (zip ((λ o : option K, f <$> o) <$> keys) values)).*2
  = (filter (λ kv, kv.1 = Some k) (zip keys values)).*2.
Proof.
  revert values. induction keys as [|key keys IH]; intros [|x values]; try done.
  csimpl. rewrite !filter_cons. simpl.
  destruct key as [k'|]; simpl.
  - destruct (decide (Some (f k') = Some (f k))) as [[= Heq%(inj f)]|Hne];
      destruct (decide (Some k' = Some k)) as [[= ?]|Hne']; simplify_eq;
      csimpl; by rewrite ?IH.
  - destruct (decide (None = Some (f k))), (decide (None = Some k)); try done.
Qed.

Lemma uniques_cells (keys : list (option K)) :
  let ids := f <$> uniques R keys in
  ids ≡ₚ remove_dups (notna ((λ o : option K, f <$> o) <$> keys))
  ∧ StronglySorted scalar_le ids
  ∧ ∀ V (values : list V) g k, ids !! g = Some k →
      group_values (codes R keys) values g
      = (filter (λ kv, kv.1 = Some k)
           (zip ((λ o : option K, f <$> o) <$> keys) values)).*2.
Proof.
  intros ids. split_and!.
  - apply NoDup_Permutation.
    + apply NoDup_fmap_2; [done|]. by apply uniques_NoDup.
    + apply NoDup_remove_dups.
    + intros x. unfold ids.
      rewrite elem_of_remove_dups, notna_elem, !list_elem_of_fmap.
      setoid_rewrite uniques_elem. split.
      * intros (k & -> & ?). by exists (Some k).
      * intros ([k|] & ? & ?); simplify_eq/=. by exists k.
  - by apply (StronglySorted_fmap _ R), uniques_sorted.
  - intros V values g k. unfold ids. rewrite list_lookup_fmap, fmap_Some.
    intros (k' & Hg & ->). rewrite filter_zip_inj.
    apply group_values_code_in; [by apply uniques_NoDup|done].
Qed.

End factorize_cells.

Global Instance SInt_inj : Inj (=) (=) SInt.
Proof. by intros ?? [= ?]. Qed.
Global Instance SFloat_inj : Inj (=) (=) SFloat.
Proof. by intros ?? [= ?]. Qed.
Global Instance SStr_inj : Inj (=) (=) SStr.
Proof. by intros ?? [= ?]. Qed.
Global Instance STime_inj : Inj (=) (=) STime.
Proof. by intros ?? [= ?]. Qed.
Global Instance SPeriod_inj : Inj (=) (=) SPeriod.
Proof. by intros ?? [= ?]. Qed.

(** The grouper of a column: its index lists the distinct values present
    in ascending order, and group [g] holds the rows whose key is the
    [g]-th of them. *)
Lemma factorize_correct (s : Series) :
  ∃ ids, cells (factorize s).2 = Some <$> ids
    ∧ series_len (factorize s).2 = length ids
    ∧ ids ≡ₚ remove_dups (notna (cells s))
    ∧ StronglySorted scalar_le ids
    ∧ ∀ V (values : list V) g k, ids !! g = Some k →
        group_values (factorize s).1 values g
        = (filter (λ kv, kv.1 = Some k) (zip (cells s) values)).*2.
Proof.
  destruct s as [v|v|v|v|v]; simpl.
  - destruct (uniques_cells Z.le SInt (λ _ _ H, H) (Some <$> v))
      as (Hp & Hs & Hg).
    rewrite <-list_fmap_compose in Hp, Hg.
    exists (SInt <$> uniques Z.le (Some <$> v)).
    rewrite !length_fmap, <-list_fmap_compose. done.
  - destruct (uniques_cells Qcle SFloat (λ _ _ H, H) v) as (Hp & Hs & Hg).
    exists (SFloat <$> uniques Qcle v).
    rewrite !length_fmap, <-!list_fmap_compose. done.
  - destruct (uniques_cells str_le SStr (λ _ _ H, H) v) as (Hp & Hs & Hg).
    exists (SStr <$> uniques str_le v).
    rewrite !length_fmap, <-!list_fmap_compose. done.
  - destruct (uniques_cells Z.le STime (λ _ _ H, H) v) as (Hp & Hs & Hg).
    exists (STime <$> uniques Z.le v).
    rewrite !length_fmap, <-!list_fmap_compose. done.
  - destruct (uniques_cells Z.le SPeriod (λ _ _ H, H) v) as (Hp & Hs & Hg).
    exists (SPeriod <$> uniques Z.le v).
    rewrite !length_fmap, <-!list_fmap_compose. done.
Qed.

(** ** Reductions *)

Lemma wrap64_small z : - 2 ^ 63 ≤ z < 2 ^ 63 → wrap64 z = z.
Proof. intros ?. unfold wrap64. rewrite Z.mod_small; lia. Qed.

Lemma wrap64_range z : - 2 ^ 63 ≤ wrap64 z < 2 ^ 63.
Proof.
  unfold wrap64. pose proof (Z.mod_pos_bound (z + 2 ^ 63) (2 ^ 64)). lia.
Qed.

Lemma wrap64_add_l a b : wrap64 (wrap64 a + b) = wrap64 (a + b).
Proof.
  unfold wrap64.
  replace ((a + 2 ^ 63) `mod` 2 ^ 64 - 2 ^ 63 + b + 2 ^ 63)
    with ((a + 2 ^ 63) `mod` 2 ^ 64 + b) by lia.
  rewrite Zplus_mod_idemp_l. do 2 f_equal. lia.
Qed.

Lemma sum_int64_from a l :
  foldl (λ acc x, wrap64 (acc + x)) (wrap64 a) l = wrap64 (a + total_Z l).
Proof.
  revert a. induction l as [|x l IH]; intros a; simpl.
  - by rewrite Z.add_0_r.
  - rewrite wrap64_add_l, IH. f_equal. lia.
Qed.

(** The running 64-bit sum is the exact sum reduced modulo 2^64. *)
Lemma sum_int64_total l : sum_int64 l = wrap64 (total_Z l).
Proof. apply (sum_int64_from 0). Qed.

Lemma sum_Qc_from (a : Qc) l : foldl Qcplus a l = (a + total_Qc l)%Qc.
Proof.
  revert a. induction l as [|x l IH]; intros a; simpl.
  - by rewrite Qcplus_0_r.
  - by rewrite IH, Qcplus_assoc.
Qed.

Lemma sum_float64_total l : sum_float64 l = total_Qc (notna l).
Proof. unfold sum_float64. by rewrite sum_Qc_from, Qcplus_0_l. Qed.

Lemma per_group_lookup {A} n (f : nat → A) g :
  (g < n)%nat → per_group n f !! g = Some (f g).
Proof.
  intros ?. unfold per_group. by rewrite list_lookup_fmap, lookup_seq_lt.
Qed.

Lemma per_group_length {A} n (f : nat → A) : length (per_group n f) = n.
Proof. unfold per_group. by rewrite length_fmap, length_seq. Qed.

(** ** The aggregation *)

Local Arguments reduce : simpl never.

Lemma has_column_true df c : has_column df c = true ↔ is_Some (assoc c (columns df)).
Proof. unfold has_column. by rewrite bool_decide_eq_true. Qed.

Lemma has_column_false df c : has_column df c = false ↔ assoc c (columns df) = None.
Proof.
  unfold has_column. rewrite bool_decide_eq_false. by rewrite eq_None_not_Some.
Qed.

Lemma reduce_numeric h cs n s :
  is_numeric s = true → ∃ r, reduce h cs n s = Ok r.
Proof. destruct h, s; simpl; try done; eauto. Qed.

(** ** The join *)

Ltac solve_in := apply list_elem_of_In; simpl; tauto.

Lemma getitems_Ok df c1 c2 s1 s2 :
  assoc c1 (columns df) = Some s1 → assoc c2 (columns df) = Some s2 →
  getitems df [c1; c2] = Ok (mkFrame (nrows df) [(c1, s1); (c2, s2)]).
Proof.
  intros H1 H2. unfold getitems.
  rewrite !filter_cons, filter_nil, H1, H2. simpl. by rewrite H1, H2.
Qed.

Lemma getitems_missing df cs c :
  c ∈ cs → assoc c (columns df) = None →
  ∃ missing, getitems df cs = Raise (KeyError missing).
Proof.
  intros Hin Hc. unfold getitems.
  destruct (filter _ cs) as [|m ms] eqn:Hf; [|by eexists].
  assert (c ∈ filter (λ c, assoc c (columns df) = None) cs) as Hc'
    by by apply list_elem_of_filter.
  rewrite Hf in Hc'. by apply elem_of_nil in Hc'.
Qed.

(** *** Labels that collide *)

Lemma duplicated_length seen l : length (duplicated seen l) = length l.
Proof. revert seen. induction l as [|c l IH]; intros seen; simpl; by rewrite ?IH. Qed.

Lemma duplicated_app seen l1 l2 :
  duplicated seen (l1 ++ l2)
  = duplicated seen l1 ++ duplicated (reverse l1 ++ seen) l2.
Proof.
  revert seen. induction l1 as [|c l1 IH]; intros seen; simpl; [done|].
  rewrite IH, reverse_cons, <-(assoc_L (++)). done.
Qed.

(** The collisions among the first labels of a table are collisions of
    the table. *)
Lemma suffix_dups_app old1 old2 new1 new2 :
  length old1 = length new1 →
  ∃ rest, suffix_dups (old1 ++ old2) (new1 ++ new2)
          = suffix_dups old1 new1 ++ rest.
Proof.
  intros Hlen. unfold suffix_dups. rewrite !duplicated_app.
  rewrite !zip_with_app, filter_app, fmap_app;
    rewrite ?length_zip_with, ?duplicated_length; try lia.
  by eexists.
Qed.

Lemma suffix_dups_fresh seen_new seen_old old new :
  length old = length new →
  NoDup old → (∀ x, x ∈ old → x ∉ seen_old) →
  (filter (λ p, p.1 = (true, false))
     (zip (zip (duplicated seen_new new) (duplicated seen_old old)) new)).*2
  = []
  ↔ NoDup new ∧ ∀ x, x ∈ new → x ∉ seen_new.
Proof.
  intros Hlen Hnd. revert new seen_new seen_old Hlen.
  induction Hnd as [|c old Hc Hnd IH]; intros [|d new] seen_new seen_old Hlen
    Hseen; simplify_eq/=.
  { split; [|done]. intros _. split; [constructor|]. by intros x ?%elem_of_nil. }
  rewrite (bool_decide_eq_false_2 (c ∈ seen_old)) by (apply Hseen; left).
  rewrite filter_cons. simpl.
  assert (∀ x, x ∈ old → x ∉ c :: seen_old) as Hseen'.
  { intros x Hx [->|Hin]%elem_of_cons; [done|].
    by apply (Hseen x); [right|]. }
  destruct (decide (d ∈ seen_new)) as [Hd|Hd].
  - rewrite (bool_decide_eq_true_2 (d ∈ seen_new)) by done.
    rewrite decide_True by done. csimpl. split; [done|].
    intros [_ Hfresh]. exfalso. by apply (Hfresh d); [left|].
  - rewrite (bool_decide_eq_false_2 (d ∈ seen_new)) by done.
    rewrite decide_False by (intros [= ?]). rewrite IH by done.
    rewrite NoDup_cons. split.
    + intros [Hnd' Hfresh]. split_and!; [|done|].
      * intros Hin. by apply (Hfresh d); [|left].
      * intros x [->|Hx]%elem_of_cons; [done|].
        intros Hin. by apply (Hfresh x); [|right].
    + intros [[Hd' Hnd'] Hfresh]. split; [done|].
      intros x Hx [->|Hin]%elem_of_cons; [done|].
      by apply (Hfresh x); [right|].
Qed.

(** In a table whose labels are all different, the suffix makes two
    labels collide exactly when the renamed labels are not all
    different. *)
Lemma suffix_dups_nil old new :
  length old = length new → NoDup old →
  suffix_dups old new = [] ↔ NoDup new.
Proof.
  intros Hlen Hnd. unfold suffix_dups.
  rewrite (suffix_dups_fresh [] [] old new Hlen Hnd).
  - split; [by intros [? _]|]. intros ?. split; [done|].
    by intros x _ ?%elem_of_nil.
  - by intros x _ ?%elem_of_nil.
Qed.

Lemma suffixed_region c :
  suffixed ["CustomerID"; "Region"] "CustomerID" "_x" c
  = if decide (c = "Region") then "Region_x" else c.
Proof.
  unfold suffixed. destruct (decide (c = "Region")) as [->|Hne].
  - rewrite decide_True; [done|]. split; [done|solve_in].
  - rewrite decide_False; [done|].
    intros [Hid [->|[->|[]%elem_of_nil]%elem_of_cons]%elem_of_cons]; done.
Qed.

(** For a transaction table whose labels are all different, the merge
    with the customer table's Region makes two labels collide exactly
    when the table has both a Region and a Region_x column. *)
Lemma merge_dups_clash t :
  unique_labels t = true → merge_dups t ≠ [] ↔ label_clash t = true.
Proof.
  intros Hnd%bool_decide_eq_true. unfold merge_dups.
  rewrite suffix_dups_nil by (by rewrite ?length_fmap).
  unfold label_clash. rewrite andb_true_iff, !has_column_true.
  assert (∀ c, is_Some (assoc c (columns t)) ↔ c ∈ labels t) as Hin.
  { intros c. unfold labels.
    induction (columns t) as [|[d s] cols IH]; simpl.
    - rewrite elem_of_nil. split; [by intros [? ?]|done].
    - rewrite elem_of_cons. case_decide; subst.
      + split; eauto.
      + rewrite IH. split; [by right|]. by intros [?|?]. }
  rewrite !Hin. split.
  - intros Hdup.
    destruct (decide ("Region" ∈ labels t)) as [Hr|Hr],
      (decide ("Region_x" ∈ labels t)) as [Hx|Hx]; try done;
      exfalso; apply Hdup; (apply NoDup_fmap_2_strong; [|done]);
      intros x y Hxin Hyin; rewrite !suffixed_region;
      repeat case_decide; congruence.
  - intros [Hr Hx] Hdup.
    apply list_elem_of_lookup in Hr as [i Hi], Hx as [j Hj].
    assert (i = j) as ->; [|congruence].
    eapply NoDup_lookup; [exact Hdup|..];
      rewrite list_lookup_fmap; [rewrite Hi|rewrite Hj]; simpl;
      by rewrite suffixed_region.
Qed.

(** *** The outcome of the join *)

Lemma joined_eq c t kc region kt :
  assoc "CustomerID" (columns c) = Some kc →
  assoc "Region" (columns c) = Some region →
  assoc "CustomerID" (columns t) = Some kt →
  ∃ j, joined c t
       = match key_verdict kt kc with
         | Mergeable =>
             match merge_dups t with [] => Ok j | _ => Raise MergeError end
         | Refused => Raise ValueError
         | Undetermined => Unmodelled
         end.
Proof.
  intros Hkc Hr Hkt. unfold joined.
  rewrite (getitems_Ok _ _ _ _ _ Hkc Hr). simpl.
  unfold merge, getitem. simpl. rewrite Hkt. simpl.
  destruct (key_verdict kt kc); [|by exists t..].
  replace (suffix_dups ["Region"] _) with (@nil string); last first.
  { by unfold suffix_dups. }
  rewrite app_nil_r.
  change (suffix_dups (labels t) _) with (merge_dups t).
  destruct (merge_dups t); by eexists.
Qed.

Lemma joined_missing c t :
  has_column c "CustomerID" && has_column c "Region"
  && has_column t "CustomerID" = false →
  ∃ missing, joined c t = Raise (KeyError missing).
Proof.
  rewrite !andb_false_iff, !has_column_false. unfold joined.
  intros [[Hc|Hc]|Ht].
  - destruct (getitems_missing c ["CustomerID"; "Region"] "CustomerID")
      as [m ->]; [solve_in|done|by eexists].
  - destruct (getitems_missing c ["CustomerID"; "Region"] "Region")
      as [m ->]; [solve_in|done|by eexists].
  - destruct (assoc "CustomerID" (columns c)) as [kc|] eqn:Hkc; last first.
    { destruct (getitems_missing c ["CustomerID"; "Region"] "CustomerID")
        as [m ->]; [solve_in|done|by eexists]. }
    destruct (assoc "Region" (columns c)) as [r|] eqn:Hr; last first.
    { destruct (getitems_missing c ["CustomerID"; "Region"] "Region")
        as [m ->]; [solve_in|done|by eexists]. }
    rewrite (getitems_Ok _ _ _ _ _ Hkc Hr). simpl.
    unfold merge, getitem. simpl. rewrite Ht. simpl. by eexists.
Qed.

(** The join fails for want of a column, or it is what pandas makes of
    the two key columns and of the labels. *)
Lemma joined_cases c t :
  (has_column c "CustomerID" && has_column c "Region"
   && has_column t "CustomerID" = false
   ∧ ∃ missing, joined c t = Raise (KeyError missing))
  ∨ ∃ kc region kt j,
      assoc "CustomerID" (columns c) = Some kc
      ∧ assoc "Region" (columns c) = Some region
      ∧ assoc "CustomerID" (columns t) = Some kt
      ∧ joined c t
        = match key_verdict kt kc with
          | Mergeable =>
              match merge_dups t with [] => Ok j | _ => Raise MergeError end
          | Refused => Raise ValueError
          | Undetermined => Unmodelled
          end.
Proof.
  destruct (has_column c "CustomerID" && has_column c "Region"
            && has_column t "CustomerID") eqn:Hcols.
  - right. apply andb_true_iff in Hcols as [[Hkc Hr]%andb_true_iff Hkt].
    apply has_column_true in Hkc as [kc Hkc], Hr as [r Hr], Hkt as [kt Hkt].
    destruct (joined_eq _ _ _ _ _ Hkc Hr Hkt) as [j Hj].
    by exists kc, r, kt, j.
  - left. split; [done|]. by apply joined_missing.
Qed.

Lemma joined_Ok_inv c t j :
  joined c t = Ok j →
  ∃ kc region kt,
    assoc "CustomerID" (columns c) = Some kc
    ∧ assoc "Region" (columns c) = Some region
    ∧ assoc "CustomerID" (columns t) = Some kt
    ∧ key_verdict kt kc = Mergeable
    ∧ merge_dups t = [].
Proof.
  intros Hj.
  destruct (joined_cases c t)
    as [[_ [m Hm]]|(kc & r & kt & j' & Hkc & Hr & Hkt & Heq)]; [congruence|].
  exists kc, r, kt. rewrite Hj in Heq.
  destruct (key_verdict kt kc); try done.
  by destruct (merge_dups t).
Qed.

Lemma aggregate_missing t :
  has_column t "CustomerID" && has_column t "TransactionID"
  && has_column t "TotalValue" && has_column t "Quantity" = false →
  ∃ missing, aggregate t = Raise (KeyError missing).
Proof.
  intros Hmiss. unfold aggregate, groupby, getitem.
  destruct (assoc "CustomerID" (columns t)) as [key|] eqn:Hkey;
    [|by eexists].
  simpl. destruct (factorize key) as [cs idx]. simpl.
  unfold agg. simpl.
  destruct (merge_sort _ _) as [|m ms] eqn:Hf; [|by eexists].
  exfalso.
  pose proof (merge_sort_Permutation str_le
                (filter (λ c, assoc c (columns t) = None)
                   ["TransactionID"; "TotalValue"; "Quantity"])) as Hperm.
  rewrite Hf in Hperm. apply Permutation_nil_l in Hperm.
  assert (∀ c, c ∈ ["TransactionID"; "TotalValue"; "Quantity"] →
               assoc c (columns t) ≠ None) as Hall.
  { intros c Hc Hnone.
    assert (c ∈ filter (λ c, assoc c (columns t) = None)
                  ["TransactionID"; "TotalValue"; "Quantity"]) as Hc'
      by by apply list_elem_of_filter.
    rewrite <-Hperm in Hc'. by apply elem_of_nil in Hc'. }
  rewrite !andb_false_iff, !has_column_false in Hmiss.
  destruct Hmiss as [[[?|?]|?]|?]; [congruence|..];
    (eapply Hall; [|done]); solve_in.
Qed.

(** The call is the join followed by the aggregation, and it hands the
    store back as it found it. *)
Lemma analyze_split σ :
  analyze_customer_behavior Customers Transactions σ
  = obind (joined (customers σ) (transactions σ)) (λ _,
      obind (aggregate (transactions σ)) (λ out, Ok (out, σ))).
Proof.
  unfold analyze_customer_behavior, joined, aggregate.
  unfold mbind, M_bind, bind, read, lift, mret, M_ret, ret. simpl.
  destruct (getitems (customers σ) _) as [right| |]; simpl; try done.
  destruct (merge (transactions σ) right _) as [j| |]; simpl; try done.
  destruct (groupby (transactions σ) _) as [gb| |]; simpl; try done.
  destruct (agg gb _) as [a| |]; simpl; try done.
  destruct (set_columns _ _) as [out| |]; simpl; done.
Qed.

(** ** The behaviour table *)

Lemma reduce_len h cs n s r : reduce h cs n s = Ok r → series_len r = n.
Proof.
  unfold reduce.
  destruct h, s as [v|v|[|x v]|v|v]; intros Hr; simplify_eq/=;
    rewrite ?per_group_length; try done; by case_decide; simplify_eq/=.
Qed.

Lemma aggregate_Ok_inv t out :
  aggregate t = Ok out →
  ∃ key tid tv qty spend avg items,
    assoc "CustomerID" (columns t) = Some key
    ∧ assoc "TransactionID" (columns t) = Some tid
    ∧ assoc "TotalValue" (columns t) = Some tv
    ∧ assoc "Quantity" (columns t) = Some qty
    ∧ reduce sum (factorize key).1 (series_len (factorize key).2) tv
      = Ok spend
    ∧ reduce mean (factorize key).1 (series_len (factorize key).2) tv
      = Ok avg
    ∧ reduce sum (factorize key).1 (series_len (factorize key).2) qty
      = Ok items
    ∧ out = mkFrame (series_len (factorize key).2)
              [("CustomerID", (factorize key).2);
               ("total_transactions",
                int64 (per_group (series_len (factorize key).2)
                         (λ g, count_notna
                                 (group_values (factorize key).1
                                    (cells tid) g))));
               ("total_spend", spend);
               ("avg_transaction_value", avg);
               ("total_items", items)].
Proof.
  intros Hout.
  destruct (has_column t "CustomerID" && has_column t "TransactionID"
            && has_column t "TotalValue" && has_column t "Quantity")
    eqn:Hcols; last first.
  { destruct (aggregate_missing _ Hcols) as [m Hm]. congruence. }
  apply andb_true_iff in Hcols
    as [[[Hkey Htid]%andb_true_iff Htv]%andb_true_iff Hqty].
  apply has_column_true in Hkey as [key Hkey], Htid as [tid Htid],
    Htv as [tv Htv], Hqty as [qty Hqty].
  exists key, tid, tv, qty.
  revert Hout. unfold aggregate, groupby, getitem. rewrite Hkey. simpl.
  destruct (factorize key) as [cs idx] eqn:Hf. simpl.
  unfold agg, getitem. simpl.
  rewrite !filter_cons, filter_nil, Htid, Htv, Hqty. simpl.
  destruct (reduce sum cs (series_len idx) tv) as [spend| |]; simpl;
    try done.
  destruct (reduce mean cs (series_len idx) tv) as [avg| |]; simpl;
    try done.
  destruct (reduce sum cs (series_len idx) qty) as [items| |]; simpl;
    try done.
  intros [= <-]. by exists spend, avg, items.
Qed.

Lemma analyze_Ok_inv σ out σ1 :
  analyze_customer_behavior Customers Transactions σ = Ok (out, σ1) →
  σ1 = σ
  ∧ (∃ j, joined (customers σ) (transactions σ) = Ok j)
  ∧ aggregate (transactions σ) = Ok out.
Proof.
  rewrite analyze_split.
  destruct (joined _ _) as [j| |]; simpl; try done.
  destruct (aggregate _) as [out'| |]; simpl; try done.
  intros [= <- <-]. eauto.
Qed.

Lemma cell_customer out ids g k :
  col out "CustomerID" = Some <$> ids →
  row_of out g k ↔ ids !! g = Some k.
Proof.
  intros Hcol. unfold row_of, cell. rewrite Hcol, list_lookup_fmap, fmap_Some.
  split.
  - by intros (k' & ? & [= ->]).
  - intros ?. by exists k.
Qed.

(** The table that the aggregation returns has one row per customer
    identifier, in ascending order, whose cells are the count, the sum and
    the mean over that customer's transactions. *)
Lemma aggregate_table t out :
  aggregate t = Ok out →
  ∃ ids,
    labels out = ["CustomerID"; "total_transactions"; "total_spend";
                  "avg_transaction_value"; "total_items"]
    ∧ nrows out = length ids
    ∧ Forall (λ p, series_len p.2 = nrows out) (columns out)
    ∧ col out "CustomerID" = Some <$> ids
    ∧ ids ≡ₚ customer_ids t
    ∧ StronglySorted scalar_le ids
    ∧ ∀ g k, ids !! g = Some k →
        cell out "total_transactions" g
        = Some (Some (SInt (count_of t "TransactionID" k)))
        ∧ (∃ s, total_of t "TotalValue" k = Some s
                ∧ cell out "total_spend" g = Some (Some (wrapped s)))
        ∧ cell out "avg_transaction_value" g
          = Some (SFloat <$> average_of t "TotalValue" k)
        ∧ (∃ s, total_of t "Quantity" k = Some s
                ∧ cell out "total_items" g = Some (Some (wrapped s))).
Proof.
  intros (key & tid & tv & qty & spend & avg & items & Hkey & Htid & Htv
          & Hqty & Hspend & Havg & Hitems & ->)%aggregate_Ok_inv.
  destruct (factorize_correct key)
    as (ids & Hidx & Hlen & Hperm & Hsorted & Hgroup).
  set (cs := (factorize key).1) in *. set (idx := (factorize key).2) in *.
  set (n := series_len idx) in *.
  exists ids. split_and!; try done.
  - repeat constructor; simpl; rewrite ?per_group_length; try done;
      by eapply reduce_len.
  - unfold customer_ids, col. by rewrite Hkey.
  - intros g k Hg.
    assert (g < n)%nat as Hlt by (rewrite Hlen; by eapply lookup_lt_Some).
    specialize (λ V values, Hgroup V values g k Hg).
    unfold cell, col, count_of, total_of, average_of, customer_rows. simpl.
    unfold col. rewrite Hkey, Htid, Htv, Hqty. simpl.
    unfold reduce in *.
    split_and!.
    + by rewrite list_lookup_fmap, per_group_lookup, Hgroup.
    + destruct tv as [v|v|[|x v]|v|v]; simplify_eq/=;
        try (case_decide; [lia|done]); eexists; (split; [done|]); simpl.
      * by rewrite list_lookup_fmap, per_group_lookup, Hgroup,
          sum_int64_total.
      * by rewrite list_lookup_fmap, per_group_lookup, Hgroup,
          sum_float64_total.
    + destruct tv as [v|v|[|x v]|v|v]; simplify_eq/=;
        try (case_decide; [lia|done]);
        by rewrite list_lookup_fmap, per_group_lookup, Hgroup.
    + destruct qty as [v|v|[|x v]|v|v]; simplify_eq/=;
        try (case_decide; [lia|done]); eexists; (split; [done|]); simpl.
      * by rewrite list_lookup_fmap, per_group_lookup, Hgroup,
          sum_int64_total.
      * by rewrite list_lookup_fmap, per_group_lookup, Hgroup,
          sum_float64_total.
Qed.

(** Whenever the call returns a table, its rows are the customers of the
    transaction table, and the row of a customer holds the count, the sum
    and the mean over that customer's transactions. *)
Lemma behaviour_rows σ out σ' :
  analyze_customer_behavior Customers Transactions σ = Ok (out, σ') →
  rows_are_customers (transactions σ) out
  ∧ ∀ g k, row_of out g k →
      cell out "total_transactions" g
      = Some (Some (SInt (count_of (transactions σ) "TransactionID" k)))
      ∧ (∃ s, total_of (transactions σ) "TotalValue" k = Some s
              ∧ cell out "total_spend" g = Some (Some (wrapped s)))
      ∧ cell out "avg_transaction_value" g
        = Some (SFloat <$> average_of (transactions σ) "TotalValue" k)
      ∧ (∃ s, total_of (transactions σ) "Quantity" k = Some s
              ∧ cell out "total_items" g = Some (Some (wrapped s))).
Proof.
  intros (_ & _ & Hagg)%analyze_Ok_inv.
  destruct (aggregate_table _ _ Hagg)
    as (ids & _ & Hn & _ & Hcol & Hperm & _ & Hrows).
  assert (∀ k, k ∈ ids ↔ Some k ∈ col (transactions σ) "CustomerID") as Hin.
  { intros k. unfold customer_ids in Hperm.
    by rewrite Hperm, elem_of_remove_dups, notna_elem. }
  split; [split|].
  - intros g Hg. rewrite Hn in Hg.
    apply lookup_lt_is_Some in Hg as [k Hk]. exists k. split.
    + by apply (cell_customer _ ids).
    + apply Hin. by eapply list_elem_of_lookup_2.
  - intros k [g Hg]%Hin%list_elem_of_lookup. exists g. split.
    + rewrite Hn. by eapply lookup_lt_Some.
    + by apply (cell_customer _ ids).
  - intros g k Hg%(cell_customer _ ids); [|done]. by apply Hrows.
Qed.


(** * The claims *)

(** C1, as it holds.  Whenever the Behavior Aggregator returns a table,
    the table has exactly one row per distinct non-null customer
    identifier of the transaction table: its row count is the number of
    those identifiers, every column has that many cells, and the
    CustomerID column lists each of them once, none missing and none
    twice. *)
Theorem one_row_per_customer σ out σ' :
  analyze_customer_behavior Customers Transactions σ = Ok (out, σ') →
  nrows out = length (customer_ids (transactions σ))
  ∧ Forall (λ p, series_len p.2 = nrows out) (columns out)
  ∧ ∃ ids,
      col out "CustomerID" = Some <$> ids
      ∧ NoDup ids
      ∧ ∀ k, k ∈ ids ↔ Some k ∈ col (transactions σ) "CustomerID".
Proof.
  intros (_ & _ & Hagg)%analyze_Ok_inv.
  destruct (aggregate_table _ _ Hagg)
    as (ids & _ & Hn & Hlen & Hcol & Hperm & _).
  split_and!; try done.
  - by rewrite Hn, Hperm.
  - exists ids. split_and!; try done.
    + rewrite Hperm. apply NoDup_remove_dups.
    + intros k. unfold customer_ids in Hperm.
      by rewrite Hperm, elem_of_remove_dups, notna_elem.
Qed.

Lemma one_row_per_customer_witness :
  ∃ out,
    analyze_customer_behavior Customers Transactions sample
    = Ok (out, sample)
    ∧ nrows out = 2%nat
    ∧ nrows out = length (customer_ids (transactions sample))
    ∧ Forall (λ p, series_len p.2 = nrows out) (columns out)
    ∧ ∃ ids,
        col out "CustomerID" = Some <$> ids
        ∧ NoDup ids
        ∧ ∀ k, k ∈ ids ↔ Some k ∈ col (transactions sample) "CustomerID".
Proof.
  eexists. split; [vm_compute; reflexivity|]. split; [reflexivity|].
  eapply (one_row_per_customer sample). vm_compute; reflexivity.
Defined.

(** C1, as stated, fails.  The sample transactions have two distinct
    customer identifiers, which are strings.  With a customer table
    whose identifiers are integers pandas refuses the join that the
    aggregator computes first, so the call raises ValueError and produces
    no table at all. *)
Lemma no_table_without_the_join :
  analyze_customer_behavior Customers Transactions
    (mkStore numbered_customers sample_products sample_transactions)
  = Raise ValueError
  ∧ length (customer_ids sample_transactions) = 2%nat
  ∧ ¬ one_row_per_customer_id
        (mkStore numbered_customers sample_products sample_transactions).
Proof.
  split; [reflexivity|]. split; [reflexivity|].
  intros (out & σ' & Hrun & _). vm_compute in Hrun. discriminate.
Qed.



(** C7.  Whenever the aggregator returns a table, its rows are the
    distinct non-null customer identifiers of the transaction table in
    ascending order, each identifier strictly below the next. *)
Theorem rows_ascending σ out σ' :
  analyze_customer_behavior Customers Transactions σ = Ok (out, σ') →
  ∃ ids,
    col out "CustomerID" = Some <$> ids
    ∧ length ids = nrows out
    ∧ ids ≡ₚ customer_ids (transactions σ)
    ∧ StronglySorted scalar_le ids
    ∧ NoDup ids.
Proof.
  intros (_ & _ & Hagg)%analyze_Ok_inv.
  destruct (aggregate_table _ _ Hagg)
    as (ids & _ & Hn & _ & Hcol & Hperm & Hsorted & _).
  exists ids. split_and!; try done.
  rewrite Hperm. apply NoDup_remove_dups.
Qed.

Lemma rows_ascending_witness :
  ∃ out,
    analyze_customer_behavior Customers Transactions sample
    = Ok (out, sample)
    ∧ col (transactions sample) "CustomerID"
      = [Some (SStr "C2"); Some (SStr "C1"); Some (SStr "C2")]
    ∧ col out "CustomerID" = [Some (SStr "C1"); Some (SStr "C2")]
    ∧ ∃ ids,
        col out "CustomerID" = Some <$> ids
        ∧ length ids = nrows out
        ∧ ids ≡ₚ customer_ids (transactions sample)
        ∧ StronglySorted scalar_le ids
        ∧ NoDup ids.
Proof.
  eexists. split; [vm_compute; reflexivity|].
  split; [reflexivity|]. split; [reflexivity|].
  eapply (rows_ascending sample). vm_compute; reflexivity.
Defined.

Lemma notna_length_nulls {A} (l : list (option A)) :
  length l = (length (notna l) + length (filter (λ o, o = None) l))%nat.
Proof.
  induction l as [|[x|] l IH]; [done|..]; rewrite filter_cons;
    unfold notna in *; csimpl; lia.
Qed.

(** C10.  Whenever the aggregator returns a table, its rows are the
    customers of the transaction table, and in the row of a customer
    [total_transactions] counts the customer's transactions whose
    TransactionID is present: it is the number of the customer's rows
    less those with a missing TransactionID.  The two sums range over all
    the customer's rows, whether or not they have a TransactionID. *)
Theorem count_skips_missing_ids σ out σ' :
  analyze_customer_behavior Customers Transactions σ = Ok (out, σ') →
  rows_are_customers (transactions σ) out
  ∧ ∀ g k, row_of out g k →
      let ids_of_k :=
        customer_rows (transactions σ) k
          (col (transactions σ) "TransactionID") in
      cell out "total_transactions" g
      = Some (Some (SInt (Z.of_nat (length (notna ids_of_k)))))
      ∧ Z.of_nat (length (notna ids_of_k))
        = Z.of_nat (length ids_of_k)
          - Z.of_nat (length (filter (λ o, o = None) ids_of_k))
      ∧ cell out "total_spend" g
        = Some (wrapped <$> total_of (transactions σ) "TotalValue" k)
      ∧ cell out "total_items" g
        = Some (wrapped <$> total_of (transactions σ) "Quantity" k)
      ∧ is_Some (total_of (transactions σ) "TotalValue" k)
      ∧ is_Some (total_of (transactions σ) "Quantity" k).
Proof.
  intros [Hcust Hrows]%behaviour_rows. split; [done|].
  intros g k Hg.
  destruct (Hrows g k Hg)
    as (Hcount & (s & -> & Hspend) & _ & (s' & -> & Hitems)).
  simpl. split_and!; try done.
  rewrite (notna_length_nulls (customer_rows _ _ _)). lia.
Qed.

Lemma count_skips_missing_ids_witness :
  ∃ out,
    analyze_customer_behavior Customers Transactions sample_with_gaps
    = Ok (out, sample_with_gaps)
    ∧ col (transactions sample_with_gaps) "TransactionID"
      = [Some (SStr "T1"); Some (SStr "T2"); None]
    ∧ col out "total_transactions" = [Some (SInt 2); Some (SInt 0)]
    ∧ col out "total_items" = [Some (SInt 2); Some (SInt 4)]
    ∧ rows_are_customers (transactions sample_with_gaps) out
    ∧ ∀ g k, row_of out g k →
        let ids_of_k :=
          customer_rows (transactions sample_with_gaps) k
            (col (transactions sample_with_gaps) "TransactionID") in
        cell out "total_transactions" g
        = Some (Some (SInt (Z.of_nat (length (notna ids_of_k)))))
        ∧ Z.of_nat (length (notna ids_of_k))
          = Z.of_nat (length ids_of_k)
            - Z.of_nat (length (filter (λ o, o = None) ids_of_k))
        ∧ cell out "total_spend" g
          = Some (wrapped
                    <$> total_of (transactions sample_with_gaps)
                          "TotalValue" k)
        ∧ cell out "total_items" g
          = Some (wrapped
                    <$> total_of (transactions sample_with_gaps)
                          "Quantity" k)
        ∧ is_Some (total_of (transactions sample_with_gaps) "TotalValue" k)
        ∧ is_Some (total_of (transactions sample_with_gaps) "Quantity" k).
Proof.
  eexists. split; [vm_compute; reflexivity|].
  split; [reflexivity|]. split; [reflexivity|]. split; [reflexivity|].
  eapply (count_skips_missing_ids sample_with_gaps). vm_compute; reflexivity.
Defined.

(** ** Failures *)

Lemma reduce_no_raise h cs n s e : reduce h cs n s ≠ Raise e.
Proof.
  unfold reduce. destruct h, s as [v|v|[|x v]|v|v]; try done;
    by case_decide.
Qed.

Lemma aggregate_Raise_inv t e :
  aggregate t = Raise e →
  has_column t "CustomerID" && has_column t "TransactionID"
  && has_column t "TotalValue" && has_column t "Quantity" = false
  ∧ ∃ missing, e = KeyError missing.
Proof.
  intros He.
  destruct (has_column t "CustomerID" && has_column t "TransactionID"
            && has_column t "TotalValue" && has_column t "Quantity")
    eqn:Hcols; last first.
  { split; [done|]. destruct (aggregate_missing _ Hcols) as [m Hm].
    exists m. congruence. }
  exfalso.
  apply andb_true_iff in Hcols
    as [[[Hkey Htid]%andb_true_iff Htv]%andb_true_iff Hqty].
  apply has_column_true in Hkey as [key Hkey], Htid as [tid Htid],
    Htv as [tv Htv], Hqty as [qty Hqty].
  revert He. unfold aggregate, groupby, getitem. rewrite Hkey. simpl.
  destruct (factorize key) as [cs idx] eqn:Hf. simpl.
  unfold agg, getitem. simpl.
  rewrite !filter_cons, filter_nil, Htid, Htv, Hqty. simpl.
  destruct (reduce sum cs (series_len idx) tv) as [spend| |] eqn:H1; simpl;
    try done; [|by apply reduce_no_raise in H1].
  destruct (reduce mean cs (series_len idx) tv) as [avg| |] eqn:H2; simpl;
    try done; [|by apply reduce_no_raise in H2].
  destruct (reduce sum cs (series_len idx) qty) as [items| |] eqn:H3; simpl;
    try done. by apply reduce_no_raise in H3.
Qed.

Lemma required_columns_split c t :
  required_columns c t
  = (has_column c "CustomerID" && has_column c "Region"
     && has_column t "CustomerID")
    && (has_column t "CustomerID" && has_column t "TransactionID"
        && has_column t "TotalValue" && has_column t "Quantity").
Proof.
  unfold required_columns.
  destruct (has_column c "CustomerID"), (has_column c "Region"),
    (has_column t "CustomerID"); done.
Qed.

(** What the call needs in order to return. *)
Lemma analyze_Ok_needs σ out σ' :
  analyze_customer_behavior Customers Transactions σ = Ok (out, σ') →
  required_columns (customers σ) (transactions σ) = true
  ∧ keys_refused (customers σ) (transactions σ) = false
  ∧ merge_dups (transactions σ) = [].
Proof.
  intros (_ & [j Hj] & Hagg)%analyze_Ok_inv.
  apply joined_Ok_inv in Hj
    as (kc & region & kt & Hkc & Hr & Hkt & Hverdict & Hdups).
  apply aggregate_Ok_inv in Hagg
    as (key & tid & tv & qty & spend & avg & items & Hkey & Htid & Htv & Hqty
        & _).
  split_and!; [| |done].
  - unfold required_columns. rewrite !andb_true_iff, !has_column_true.
    split_and!; eauto.
  - unfold keys_refused. rewrite Hkc, Hkt, Hverdict. done.
Qed.

(** What the call raises, and why. *)
Lemma analyze_Raise_inv σ e :
  analyze_customer_behavior Customers Transactions σ = Raise e →
  match e with
  | KeyError _ => required_columns (customers σ) (transactions σ) = false
  | ValueError => keys_refused (customers σ) (transactions σ) = true
  | MergeError => merge_dups (transactions σ) ≠ []
  | AttributeError => False
  end.
Proof.
  rewrite analyze_split, required_columns_split.
  destruct (joined_cases (customers σ) (transactions σ))
    as [[Hmiss [m ->]]|(kc & r & kt & j & Hkc & Hr & Hkt & ->)]; simpl.
  { intros [= <-]. by rewrite Hmiss. }
  destruct (key_verdict kt kc) eqn:Hverdict; simpl; [| |done].
  - destruct (merge_dups (transactions σ)) eqn:Hdups; simpl.
    + destruct (aggregate _) as [out| |] eqn:Hagg; simpl; try done.
      intros [= <-].
      apply aggregate_Raise_inv in Hagg as [-> [m ->]].
      apply andb_false_r.
    + by intros [= <-].
  - intros [= <-]. unfold keys_refused. by rewrite Hkc, Hkt, Hverdict.
Qed.

Lemma cells_length s : length (cells s) = series_len s.
Proof. destruct s; simpl; by rewrite length_fmap. Qed.

Lemma wf_frame_len df c s :
  wf_frame df = true → assoc c (columns df) = Some s →
  series_len s = nrows df.
Proof.
  unfold wf_frame. rewrite forallb_forall.
  intros Hwf. induction (columns df) as [|[c' s'] cols IH]; simpl; [done|].
  case_decide.
  - intros [= ->]. specialize (Hwf (c', s) (or_introl eq_refl)).
    by apply bool_decide_eq_true in Hwf.
  - apply IH. intros p Hp. apply Hwf. by right.
Qed.

Lemma holds_string_empty s : series_len s = 0%nat → holds_string s = false.
Proof.
  destruct s as [v|v|v|v|v]; simpl; try done.
  intros ->%nil_length_inv. done.
Qed.

(** Keys are never refused when the left table has no rows. *)
Lemma key_verdict_empty l r :
  series_len l = 0%nat → key_verdict l r ≠ Refused.
Proof.
  intros Hl. unfold key_verdict, is_empty.
  rewrite (bool_decide_eq_true_2 (series_len l = 0%nat)) by done.
  destruct (bool_decide (series_len r = 0%nat)) eqn:Hr; simpl; [|done].
  apply bool_decide_eq_true in Hr.
  rewrite (holds_string_empty l), (holds_string_empty r) by done.
  case_bool_decide; [done|]. by destruct l, r.
Qed.

Lemma reduce_amount h cs n s :
  is_amount s = true → (series_len s = 0%nat → n = 0%nat) →
  ∃ r, reduce h cs n s = Ok r.
Proof.
  intros Hs Hn. destruct s as [v|v|[|x v]|v|v]; try done;
    try by apply reduce_numeric.
  unfold reduce. rewrite decide_True by by apply Hn.
  destruct h; by eexists.
Qed.

Lemma column_is_assoc P df c s :
  assoc c (columns df) = Some s → column_is P df c = P s.
Proof. intros Hs. unfold column_is. by rewrite Hs. Qed.

(** On described tables the call returns or raises as the development
    says. *)
Lemma described_modelled σ :
  wf_frame (transactions σ) = true → described σ = true →
  modelled (analyze_customer_behavior Customers Transactions σ) = true.
Proof.
  intros Hwf [[Htv Hqty]%andb_true_iff Hkeys]%andb_true_iff.
  rewrite analyze_split.
  destruct (joined_cases (customers σ) (transactions σ))
    as [[_ [m ->]]|(kc & r & kt & j & Hkc & Hr & Hkt & ->)]; [done|].
  rewrite Hkc, Hkt in Hkeys. apply bool_decide_eq_true in Hkeys.
  destruct (key_verdict kt kc); [|done..].
  destruct (merge_dups (transactions σ)); [|done]. simpl.
  destruct (has_column (transactions σ) "CustomerID"
            && has_column (transactions σ) "TransactionID"
            && has_column (transactions σ) "TotalValue"
            && has_column (transactions σ) "Quantity") eqn:Hcols; last first.
  { by destruct (aggregate_missing _ Hcols) as [m ->]. }
  apply andb_true_iff in Hcols
    as [[[_ Htid]%andb_true_iff Htv']%andb_true_iff Hqty'].
  apply has_column_true in Htid as [tid Htid], Htv' as [tv Htv'],
    Hqty' as [qty Hqty'].
  rewrite (column_is_assoc _ _ _ _ Htv') in Htv.
  rewrite (column_is_assoc _ _ _ _ Hqty') in Hqty.
  assert (∀ s, series_len s = nrows (transactions σ) →
               series_len s = 0%nat →
               series_len (factorize kt).2 = 0%nat) as Hgroups.
  { intros s Hs Hzero.
    destruct (factorize_correct kt) as (ids & _ & -> & Hperm & _).
    pose proof (wf_frame_len _ _ _ Hwf Hkt) as Hl.
    rewrite Hs in Hzero. rewrite Hzero, <-cells_length in Hl.
    apply nil_length_inv in Hl. rewrite Hl in Hperm.
    by apply Permutation_nil_r in Hperm as ->. }
  destruct (reduce_amount sum (factorize kt).1 (series_len (factorize kt).2)
              tv Htv) as [spend Hspend].
  { apply Hgroups. by eapply wf_frame_len. }
  destruct (reduce_amount mean (factorize kt).1 (series_len (factorize kt).2)
              tv Htv) as [avg Havg].
  { apply Hgroups. by eapply wf_frame_len. }
  destruct (reduce_amount sum (factorize kt).1 (series_len (factorize kt).2)
              qty Hqty) as [items Hitems].
  { apply Hgroups. by eapply wf_frame_len. }
  unfold aggregate, groupby, getitem. rewrite Hkt. simpl.
  destruct (factorize kt) as [cs idx] eqn:Hf. simpl in *.
  unfold agg, getitem. simpl.
  rewrite !filter_cons, filter_nil, Htid, Htv', Hqty'. simpl.
  by rewrite Hspend, Havg, Hitems.
Qed.

Lemma well_formed_parts σ :
  well_formed σ = true →
  wf_frame (transactions σ) = true ∧ unique_labels (transactions σ) = true.
Proof. unfold well_formed. rewrite !andb_true_iff. tauto. Qed.

(** C4, as it holds.  Take well-formed tables that have the columns the
    aggregator names, a transaction table without rows that does not have
    both a Region and a Region_x column, and dtypes for which the
    development says what pandas does, as it does for [described] tables.
    Then the call does not raise: it returns a table with the five column
    headers and no rows. *)
Theorem empty_input_empty_output σ :
  well_formed σ = true →
  modelled (analyze_customer_behavior Customers Transactions σ) = true →
  nrows (transactions σ) = 0%nat →
  required_columns (customers σ) (transactions σ) = true →
  label_clash (transactions σ) = false →
  ∃ out,
    analyze_customer_behavior Customers Transactions σ = Ok (out, σ)
    ∧ labels out = ["CustomerID"; "total_transactions"; "total_spend";
                    "avg_transaction_value"; "total_items"]
    ∧ nrows out = 0%nat
    ∧ Forall (λ p, series_len p.2 = 0%nat) (columns out).
Proof.
  intros [Hwf Hul]%well_formed_parts Hmod Hempty Hreq Hclash.
  destruct (analyze_customer_behavior Customers Transactions σ)
    as [[out σ1]|e|] eqn:Hrun; [| |done].
  - pose proof Hrun as (-> & _ & Hagg)%analyze_Ok_inv.
    destruct (aggregate_table _ _ Hagg)
      as (ids & Hlabels & Hn & Hlen & _ & Hperm & _).
    apply aggregate_Ok_inv in Hagg as (key & ? & ? & ? & ? & ? & ? & Hkey & _).
    assert (nrows out = 0%nat) as Hzero.
    { rewrite Hn, Hperm. unfold customer_ids, col. rewrite Hkey. simpl.
      pose proof (wf_frame_len _ _ _ Hwf Hkey) as Hl.
      rewrite Hempty, <-cells_length in Hl.
      by apply nil_length_inv in Hl as ->. }
    exists out. split_and!; try done. by rewrite <-Hzero.
  - exfalso. apply analyze_Raise_inv in Hrun. destruct e as [m| | |].
    + congruence.
    + unfold keys_refused in Hrun.
      destruct (assoc "CustomerID" (columns (customers σ))) as [kc|];
        [|done].
      destruct (assoc "CustomerID" (columns (transactions σ))) as [kt|]
        eqn:Hkt; [|done].
      apply bool_decide_eq_true in Hrun. revert Hrun.
      apply key_verdict_empty.
      by rewrite (wf_frame_len _ _ _ Hwf Hkt).
    + apply (merge_dups_clash _ Hul) in Hrun. congruence.
    + done.
Qed.

Lemma empty_input_empty_output_witness :
  well_formed sample_header_only = true
  ∧ described sample_header_only = true
  ∧ modelled (analyze_customer_behavior Customers Transactions
                sample_header_only) = true
  ∧ nrows (transactions sample_header_only) = 0%nat
  ∧ required_columns (customers sample_header_only)
      (transactions sample_header_only) = true
  ∧ label_clash (transactions sample_header_only) = false
  ∧ ∃ out,
      analyze_customer_behavior Customers Transactions sample_header_only
      = Ok (out, sample_header_only)
      ∧ labels out = ["CustomerID"; "total_transactions"; "total_spend";
                      "avg_transaction_value"; "total_items"]
      ∧ nrows out = 0%nat
      ∧ Forall (λ p, series_len p.2 = 0%nat) (columns out).
Proof.
  split_and!; [reflexivity..|].
  apply (empty_input_empty_output sample_header_only); reflexivity.
Defined.

(** C4, as stated, fails.  A transaction table without rows that has a
    Region and a Region_x column makes the join collide: the merge would
    rename Region to Region_x, and pandas raises MergeError. *)
Lemma empty_table_with_region_columns_raises :
  nrows (transactions sample_clashing) = 0%nat
  ∧ analyze_customer_behavior Customers Transactions sample_clashing
    = Raise MergeError
  ∧ ¬ empty_gives_empty sample_clashing.
Proof.
  split; [reflexivity|]. split; [reflexivity|].
  intros Hempty. destruct (Hempty eq_refl) as (out & σ' & Hrun & _).
  vm_compute in Hrun. discriminate.
Qed.

(** ** The mean *)

Lemma mean_of_quotient l :
  mean_of l
  = match l with
    | [] => None
    | _ => Some (total_Qc l / Qc_of_Z (Z.of_nat (length l)))%Qc
    end.
Proof. destruct l as [|x l]; [done|]. simpl. by rewrite sum_Qc_from, Qcplus_0_l. Qed.

Lemma notna_fmap {A B} (f : A → B) (l : list (option A)) :
  notna ((λ o : option A, f <$> o) <$> l) = f <$> notna l.
Proof.
  unfold notna. induction l as [|[x|] l IH]; csimpl; by rewrite ?IH.
Qed.

Lemma notna_Some {B C} (h : B → C) (l : list B) :
  notna ((λ g, Some (h g)) <$> l) = h <$> l.
Proof. unfold notna. induction l; csimpl; by f_equal. Qed.

Lemma customer_rows_fmap {A B} (f : A → B) t k (values : list A) :
  customer_rows t k (f <$> values) = f <$> customer_rows t k values.
Proof.
  unfold customer_rows. generalize (col t "CustomerID") as keys.
  intros keys. revert values.
  induction keys as [|key keys IH]; intros [|x values]; try done.
  csimpl. rewrite !filter_cons. simpl.
  destruct (decide (key = Some k)); csimpl; by rewrite IH.
Qed.

Lemma total_Qc_of_Z l : total_Qc (Qc_of_Z <$> l) = Qc_of_Z (total_Z l).
Proof.
  induction l as [|z l IH]; csimpl; [by rewrite Z2Qc_inj_0|].
  by rewrite Z2Qc_inj_add, IH.
Qed.

Lemma total_Z_abs l : Z.abs (total_Z l) ≤ total_Z (Z.abs <$> l).
Proof. induction l as [|z l IH]; csimpl; lia. Qed.

(** The average of a customer is the total spend of the customer divided
    by the number of the customer's transactions that have a
    TotalValue. *)
Lemma average_quotient t k s0 :
  exact_in_double t "TotalValue" k →
  total_of t "TotalValue" k = Some s0 →
  ∃ s, number (wrapped s0) = Some s
       ∧ match average_of t "TotalValue" k with
         | Some a =>
             0 < count_of t "TotalValue" k
             ∧ a = (s / Qc_of_Z (count_of t "TotalValue" k))%Qc
         | None => count_of t "TotalValue" k = 0 ∧ s = 0%Qc
         end.
Proof.
  unfold exact_in_double, total_of, average_of, count_of, col.
  destruct (assoc "TotalValue" (columns t)) as [[v|v|v|v|v]|]; try done;
    intros Hexact [= <-]; simpl.
  - rewrite customer_rows_fmap, notna_Some, length_fmap.
    set (l := customer_rows t k v) in *.
    pose proof (total_Z_abs l).
    rewrite wrap64_small by lia.
    eexists. split; [done|].
    rewrite mean_of_quotient, total_Qc_of_Z, length_fmap.
    destruct l as [|z l']; simpl; [by rewrite Z2Qc_inj_0|].
    split; [lia|done].
  - rewrite customer_rows_fmap, notna_fmap, length_fmap.
    set (l := notna (customer_rows t k v)) in *.
    eexists. split; [done|].
    rewrite mean_of_quotient.
    destruct l as [|q l']; simpl; [done|]. split; [lia|done].
Qed.

(** C3, as it holds.  Whenever the aggregator returns a table, its rows
    are the customers of the transaction table.  Take the row of a
    customer who has as many transactions with a TransactionID as with a
    TotalValue, in particular one none of whose transactions misses
    either, and whose amounts, if they are integers, add up to at most
    2^53 in absolute value.  If the row counts at least one transaction,
    its average is its total spend divided by its count. *)
Theorem average_is_spend_over_count σ out σ' :
  analyze_customer_behavior Customers Transactions σ = Ok (out, σ') →
  rows_are_customers (transactions σ) out
  ∧ ∀ g k n, row_of out g k →
      count_of (transactions σ) "TransactionID" k
      = count_of (transactions σ) "TotalValue" k →
      exact_in_double (transactions σ) "TotalValue" k →
      cell out "total_transactions" g = Some (Some (SInt n)) → 0 < n →
      ∃ a x s,
        cell out "avg_transaction_value" g = Some (Some (SFloat a))
        ∧ cell out "total_spend" g = Some (Some x)
        ∧ number x = Some s
        ∧ a = (s / Qc_of_Z n)%Qc.
Proof.
  intros [Hcust Hrows]%behaviour_rows. split; [done|].
  intros g k n Hg Hsame Hexact Hn Hpos.
  destruct (Hrows g k Hg) as (Hcount & (s0 & Hs0 & Hspend) & Havg & _).
  rewrite Hcount in Hn. injection Hn as <-.
  destruct (average_quotient _ _ _ Hexact Hs0) as (s & Hs & Hmean).
  rewrite Hsame in Hpos. rewrite Hsame.
  destruct (average_of _ _ _) as [a|]; [|lia].
  destruct Hmean as [_ ->]. by eexists _, (wrapped s0), s.
Qed.

Lemma average_is_spend_over_count_witness :
  (∃ out,
     analyze_customer_behavior Customers Transactions sample
     = Ok (out, sample)
     ∧ rows_are_customers (transactions sample) out
     ∧ ∀ g k n, row_of out g k →
         count_of (transactions sample) "TransactionID" k
         = count_of (transactions sample) "TotalValue" k →
         exact_in_double (transactions sample) "TotalValue" k →
         cell out "total_transactions" g = Some (Some (SInt n)) → 0 < n →
         ∃ a x s,
           cell out "avg_transaction_value" g = Some (Some (SFloat a))
           ∧ cell out "total_spend" g = Some (Some x)
           ∧ number x = Some s
           ∧ a = (s / Qc_of_Z n)%Qc)
  ∧ ∃ out,
      analyze_customer_behavior Customers Transactions sample_whole
      = Ok (out, sample_whole)
      ∧ cell out "total_transactions" 1 = Some (Some (SInt 2))
      ∧ cell out "total_spend" 1 = Some (Some (SInt 50))
      ∧ cell out "avg_transaction_value" 1
        = Some (Some (SFloat (Qc_of_Z 25)))
      ∧ rows_are_customers (transactions sample_whole) out
      ∧ ∀ g k n, row_of out g k →
          count_of (transactions sample_whole) "TransactionID" k
          = count_of (transactions sample_whole) "TotalValue" k →
          exact_in_double (transactions sample_whole) "TotalValue" k →
          cell out "total_transactions" g = Some (Some (SInt n)) → 0 < n →
          ∃ a x s,
            cell out "avg_transaction_value" g = Some (Some (SFloat a))
            ∧ cell out "total_spend" g = Some (Some x)
            ∧ number x = Some s
            ∧ a = (s / Qc_of_Z n)%Qc.
Proof.
  split.
  - eexists. split; [vm_compute; reflexivity|].
    eapply (average_is_spend_over_count sample). vm_compute; reflexivity.
  - eexists. split; [vm_compute; reflexivity|].
    split; [reflexivity|]. split; [reflexivity|]. split; [qc_cells|].
    eapply (average_is_spend_over_count sample_whole).
    vm_compute; reflexivity.
Defined.

(** C3, as stated, fails.  Customer C1 has two transactions, one of them
    without a total: the row counts 2 transactions and has total spend 10
    and average 10, and 10 * 2 is not close to 10. *)
Lemma mean_invariant_fails_with_gaps :
  ∃ out,
    analyze_customer_behavior Customers Transactions sample_with_gaps
    = Ok (out, sample_with_gaps)
    ∧ cell out "total_transactions" 0 = Some (Some (SInt 2))
    ∧ cell out "total_spend" 0 = Some (Some (SFloat (Qc_of_Z 10)))
    ∧ cell out "avg_transaction_value" 0 = Some (Some (SFloat (Qc_of_Z 10)))
    ∧ ¬ mean_invariant out 0.
Proof.
  eexists. split; [vm_compute; reflexivity|].
  split_and!; [qc_cells..|].
  intros Hinv. destruct (Hinv 2) as (a & x & s & Ha & Hx & Hs & Hclose);
    [reflexivity|lia|].
  vm_compute in Ha, Hx. simplify_eq. simpl in Hs. simplify_eq.
  vm_compute in Hclose. by apply Hclose.
Qed.

(** C8.  The call leaves the loaded tables as they were and, run a second
    time, does the same as the first time: two runs in a row return twice
    the table of a single run, or fail as the single run fails. *)
Theorem aggregation_repeatable σ :
  (∀ out σ', analyze_customer_behavior Customers Transactions σ
             = Ok (out, σ') → σ' = σ)
  ∧ twice σ
    = obind (result (analyze_customer_behavior Customers Transactions σ))
        (λ out, Ok ((out, out), σ)).
Proof.
  unfold twice, mbind, M_bind, bind, mret, M_ret, ret.
  rewrite analyze_split.
  destruct (joined _ _) as [j| |] eqn:Hj; simpl;
    [|split; [intros; discriminate|done]..].
  destruct (aggregate _) as [out| |] eqn:Hagg; simpl;
    [|split; [intros; discriminate|done]..].
  split; [by intros ?? [= _ <-]|].
  rewrite analyze_split, Hj. simpl. by rewrite Hagg.
Qed.

Lemma aggregation_repeatable_witness :
  ∃ out,
    analyze_customer_behavior Customers Transactions sample
    = Ok (out, sample)
    ∧ twice sample = Ok ((out, out), sample).
Proof.
  destruct (aggregation_repeatable sample) as [_ Htwice].
  eexists. split; [vm_compute; reflexivity|].
  rewrite Htwice. vm_compute. reflexivity.
Defined.

(** ** Failures of the aggregator *)

Lemma main_split σ :
  main σ
  = obind (before_analysis σ) (λ '(metrics, σ1),
      obind (analyze_customer_behavior Customers Transactions σ1)
        (λ '(customer_behavior, σ2),
           Ok (mkResults metrics.1.1 metrics.1.2 metrics.2
                 customer_behavior, σ2))).
Proof.
  unfold main, before_analysis, mbind, M_bind, bind, mret, M_ret, ret.
  destruct (perform_eda _ _ _ σ) as [[[[cm pm] tm] σ1]| |]; simpl; try done.
  destruct (generate_visualizations _ _ _ σ1) as [[[] σ2]| |]; simpl; done.
Qed.

(** C5, as it holds.  Take well-formed tables of dtypes for which the
    development says what pandas does, as it does for [described]
    tables.  The call fails if and only if the
    transaction table lacks CustomerID, TransactionID, TotalValue or
    Quantity, or the customer table lacks CustomerID or Region, or pandas
    refuses to merge the customer identifiers of the two tables, or the
    transaction table has both a Region and a Region_x column.  A
    KeyError means a missing column, a ValueError refused identifiers and
    a MergeError the two Region columns; a missing column is reported by
    a KeyError unless the merge fails first.  When the call is made by
    [main], its failure is the outcome of the run. *)
Theorem fails_iff_column_missing σ :
  well_formed σ = true →
  modelled (analyze_customer_behavior Customers Transactions σ) = true →
  ((∃ e, analyze_customer_behavior Customers Transactions σ = Raise e)
   ↔ required_columns (customers σ) (transactions σ) = false
     ∨ keys_refused (customers σ) (transactions σ) = true
     ∨ label_clash (transactions σ) = true)
  ∧ (∀ e, analyze_customer_behavior Customers Transactions σ = Raise e →
          match e with
          | KeyError _ =>
              required_columns (customers σ) (transactions σ) = false
          | ValueError => keys_refused (customers σ) (transactions σ) = true
          | MergeError => label_clash (transactions σ) = true
          | AttributeError => False
          end)
  ∧ (required_columns (customers σ) (transactions σ) = false →
     keys_refused (customers σ) (transactions σ) = false →
     label_clash (transactions σ) = false →
     ∃ missing,
       analyze_customer_behavior Customers Transactions σ
       = Raise (KeyError missing))
  ∧ (∀ σ0 metrics e,
       before_analysis σ0 = Ok (metrics, σ) →
       analyze_customer_behavior Customers Transactions σ = Raise e →
       main σ0 = Raise e).
Proof.
  intros [_ Hul]%well_formed_parts Hmod.
  assert (∀ e, analyze_customer_behavior Customers Transactions σ = Raise e →
               match e with
               | KeyError _ =>
                   required_columns (customers σ) (transactions σ) = false
               | ValueError =>
                   keys_refused (customers σ) (transactions σ) = true
               | MergeError => label_clash (transactions σ) = true
               | AttributeError => False
               end) as Hkinds.
  { intros e He%analyze_Raise_inv. destruct e; try done.
    by apply merge_dups_clash. }
  assert (required_columns (customers σ) (transactions σ) = false
          ∨ keys_refused (customers σ) (transactions σ) = true
          ∨ label_clash (transactions σ) = true →
          ∃ e, analyze_customer_behavior Customers Transactions σ = Raise e)
    as Hfails.
  { intros Hcause.
    destruct (analyze_customer_behavior Customers Transactions σ)
      as [[out σ1]|e|] eqn:Hrun; [|by eexists|done].
    apply analyze_Ok_needs in Hrun as (Hreq & Href & Hdups).
    destruct Hcause as [?|[?|Hclash]]; [congruence..|].
    by apply (merge_dups_clash _ Hul) in Hclash. }
  split_and!; [|done| |].
  - split; [|done]. intros [e He]. specialize (Hkinds e He).
    destruct e; tauto.
  - intros Hreq Href Hclash. destruct Hfails as [e He]; [by left|].
    specialize (Hkinds e He). destruct e as [m| | |]; try congruence.
    + by exists m.
    + done.
  - intros σ0 metrics e Hbefore He. rewrite main_split, Hbefore. simpl.
    by rewrite He.
Qed.

Lemma fails_iff_column_missing_witness :
  ∃ metrics σ,
    before_analysis sample_without_quantity = Ok (metrics, σ)
    ∧ well_formed σ = true
    ∧ modelled (analyze_customer_behavior Customers Transactions σ) = true
    ∧ required_columns (customers σ) (transactions σ) = false
    ∧ analyze_customer_behavior Customers Transactions σ
      = Raise (KeyError ["Quantity"])
    ∧ main sample_without_quantity = Raise (KeyError ["Quantity"])
    ∧ ((∃ e, analyze_customer_behavior Customers Transactions σ = Raise e)
       ↔ required_columns (customers σ) (transactions σ) = false
         ∨ keys_refused (customers σ) (transactions σ) = true
         ∨ label_clash (transactions σ) = true).
Proof.
  do 2 eexists. split; [vm_compute; reflexivity|].
  match goal with
  | |- well_formed ?s = true ∧ _ =>
      destruct (fails_iff_column_missing s eq_refl eq_refl)
        as (Hiff & _ & _ & Hmain)
  end.
  split_and!; [reflexivity..| |exact Hiff].
  eapply Hmain; vm_compute; reflexivity.
Defined.

(** C5, as stated, fails.  A transaction table with the customer
    identifier, the total value and the quantity, but without the
    TransactionID that the aggregation counts, makes the call raise
    KeyError. *)
Lemma fails_without_transaction_id :
  analyze_customer_behavior Customers Transactions sample_without_id
  = Raise (KeyError ["TransactionID"])
  ∧ ¬ fails_iff_transaction_fields_missing sample_without_id.
Proof.
  split; [reflexivity|]. intros [Hfails _].
  assert (true = false) as Habs; [|done].
  apply Hfails. by eexists.
Qed.

(** ** The customer table *)

Lemma key_verdict_shape kt k1 k2 :
  same_dtype k1 k2 = true → is_empty k1 = is_empty k2 →
  holds_string k1 = holds_string k2 →
  key_verdict kt k1 = key_verdict kt k2.
Proof.
  intros Hd He Hh. unfold key_verdict. rewrite He, Hh.
  destruct k1, k2; try done; by destruct kt.
Qed.

(** C6, as it holds.  Whenever the aggregator returns for each of two
    customer tables, on the same transaction table, it returns the same
    table, which is that of aggregating the transaction table alone.  And
    for customer tables that have the CustomerID and Region columns, what
    the call returns or raises depends on the customer table only through
    the dtype of its CustomerID column, whether the column has rows and
    whether it holds any value, never through which identifiers it
    holds. *)
Theorem independent_of_customer_identifiers c1 c2 p1 p2 t :
  (∀ out1 out2 σ1 σ2,
     analyze_customer_behavior Customers Transactions (mkStore c1 p1 t)
     = Ok (out1, σ1) →
     analyze_customer_behavior Customers Transactions (mkStore c2 p2 t)
     = Ok (out2, σ2) →
     out1 = out2 ∧ aggregate t = Ok out1)
  ∧ (has_column c1 "CustomerID" && has_column c1 "Region" = true →
     has_column c2 "CustomerID" && has_column c2 "Region" = true →
     same_key_shape c1 c2 = true →
     result (analyze_customer_behavior Customers Transactions
               (mkStore c1 p1 t))
     = result (analyze_customer_behavior Customers Transactions
                 (mkStore c2 p2 t))).
Proof.
  split.
  - intros out1 out2 σ1 σ2 (_ & _ & H1)%analyze_Ok_inv
      (_ & _ & H2)%analyze_Ok_inv.
    simpl in *. split; [congruence|done].
  - intros [[k1 Hk1]%has_column_true [r1 Hr1]%has_column_true]%andb_true_iff
      [[k2 Hk2]%has_column_true [r2 Hr2]%has_column_true]%andb_true_iff
      Hshape.
    unfold same_key_shape in Hshape. rewrite Hk1, Hk2 in Hshape.
    apply andb_true_iff in Hshape
      as [[Hd He%bool_decide_eq_true]%andb_true_iff Hh%bool_decide_eq_true].
    rewrite !analyze_split. simpl.
    destruct (assoc "CustomerID" (columns t)) as [kt|] eqn:Hkt.
    + destruct (joined_eq _ _ _ _ _ Hk1 Hr1 Hkt) as [j1 ->].
      destruct (joined_eq _ _ _ _ _ Hk2 Hr2 Hkt) as [j2 ->].
      rewrite (key_verdict_shape kt k1 k2) by done.
      destruct (key_verdict kt k2); try done.
      destruct (merge_dups t); try done. simpl.
      by destruct (aggregate t).
    + unfold joined.
      rewrite (getitems_Ok _ _ _ _ _ Hk1 Hr1), (getitems_Ok _ _ _ _ _ Hk2 Hr2).
      simpl. unfold merge, getitem. simpl. by rewrite Hkt.
Qed.

Lemma independent_of_customer_identifiers_witness :
  (∃ out,
     analyze_customer_behavior Customers Transactions
       (mkStore sample_customers sample_products sample_transactions)
     = Ok (out, mkStore sample_customers sample_products sample_transactions)
     ∧ analyze_customer_behavior Customers Transactions
         (mkStore other_customers sample_products sample_transactions)
       = Ok (out, mkStore other_customers sample_products sample_transactions)
     ∧ aggregate sample_transactions = Ok out)
  ∧ same_key_shape sample_customers other_customers = true
  ∧ result (analyze_customer_behavior Customers Transactions
              (mkStore sample_customers sample_products sample_transactions))
    = result (analyze_customer_behavior Customers Transactions
                (mkStore other_customers sample_products sample_transactions)).
Proof.
  destruct (independent_of_customer_identifiers sample_customers
              other_customers sample_products sample_products
              sample_transactions) as [Hsame Hshape].
  split_and!.
  - eexists. split; [vm_compute; reflexivity|].
    split; [vm_compute; reflexivity|].
    eapply Hsame; vm_compute; reflexivity.
  - reflexivity.
  - apply Hshape; reflexivity.
Defined.

(** C6, as stated, fails.  Both customer tables have the CustomerID and
    Region columns, but one has integers where the transactions have
    strings: pandas refuses to merge an object key with an int64 key, so
    with that table the call raises ValueError where with the other it
    returns a table. *)
Lemma depends_on_customer_key_dtype :
  result (analyze_customer_behavior Customers Transactions
            (mkStore numbered_customers sample_products sample_transactions))
  = Raise ValueError
  ∧ ¬ independent_of_customers sample_customers numbered_customers
        sample_products sample_transactions.
Proof.
  split; [reflexivity|]. intros Hindep.
  specialize (Hindep eq_refl eq_refl). vm_compute in Hindep. discriminate.
Qed.

(** ** Writes to the loaded tables *)

Lemma bind_Ok {A B} (m : M A) (k : A → M B) σ b σ2 :
  (m ≫= k) σ = Ok (b, σ2) →
  ∃ a σ1, m σ = Ok (a, σ1) ∧ k a σ1 = Ok (b, σ2).
Proof.
  unfold mbind, M_bind, bind. destruct (m σ) as [[a σ1]| |]; simpl; try done.
  intros ?. by exists a, σ1.
Qed.

Lemma lift_Ok {A} (o : outcome A) σ a σ1 :
  lift o σ = Ok (a, σ1) → o = Ok a ∧ σ1 = σ.
Proof. unfold lift. destruct o; simpl; naive_solver. Qed.

Lemma len_Ok r σ n σ1 : len r σ = Ok (n, σ1) → σ1 = σ.
Proof. by intros [= _ <-]. Qed.

Lemma read_Ok r σ df σ1 : read r σ = Ok (df, σ1) → df = deref r σ ∧ σ1 = σ.
Proof. by intros [= <- <-]. Qed.

Lemma column_Ok r c σ s σ1 :
  column r c σ = Ok (s, σ1) →
  assoc c (columns (deref r σ)) = Some s ∧ σ1 = σ.
Proof.
  intros (df & σ' & [-> ->]%read_Ok & [Hget ->]%lift_Ok)%bind_Ok.
  unfold getitem in Hget. by destruct (assoc c _); simplify_eq.
Qed.

Lemma set_column_Ok r c s σ u σ1 :
  set_column r c s σ = Ok (u, σ1) →
  σ1 = assign r (mkFrame (nrows (deref r σ))
                   (replace_col c s (columns (deref r σ)))) σ.
Proof.
  unfold set_column, setitem. case_decide; simpl; [|done]. by intros [= _ <-].
Qed.

Lemma plotted_Ok r x σ u σ1 : plotted r x σ = Ok (u, σ1) → σ1 = σ.
Proof.
  intros (df & σ' & [-> ->]%read_Ok & Hrest)%bind_Ok.
  destruct (has_column _ _); [by injection Hrest|done].
Qed.

Lemma assoc_replace_col_ne c c' s cols :
  c ≠ c' → assoc c (replace_col c' s cols) = assoc c cols.
Proof.
  intros Hne. induction cols as [|[d s'] cols IH]; simpl.
  - by rewrite decide_False.
  - destruct (decide (d = c')) as [->|]; simpl.
    + by rewrite !decide_False.
    + destruct (decide (d = c)); [done|apply IH].
Qed.

(** [perform_eda] writes the Year and Month of TransactionDate to the
    transaction table and nothing else. *)
Lemma perform_eda_writes σ r σ1 :
  perform_eda Customers Products Transactions σ = Ok (r, σ1) →
  ∃ date year month,
    assoc "TransactionDate" (columns (transactions σ)) = Some date
    ∧ dt_year date = Ok year ∧ dt_month date = Ok month
    ∧ σ1 = mkStore (customers σ) (products σ)
             (mkFrame (nrows (transactions σ))
                (replace_col "Month" month
                   (replace_col "Year" year (columns (transactions σ))))).
Proof.
  unfold perform_eda. intros H.
  apply bind_Ok in H as (? & ? & ->%len_Ok & H).
  apply bind_Ok in H as (? & ? & [_ ->]%column_Ok & H).
  apply bind_Ok in H as (? & ? & [_ ->]%column_Ok & H).
  apply bind_Ok in H as (? & ? & [_ ->]%lift_Ok & H).
  apply bind_Ok in H as (? & ? & ->%len_Ok & H).
  apply bind_Ok in H as (? & ? & [_ ->]%column_Ok & H).
  apply bind_Ok in H as (? & ? & [_ ->]%column_Ok & H).
  apply bind_Ok in H as (date & ? & [Hdate ->]%column_Ok & H).
  apply bind_Ok in H as (year & ? & [Hyear ->]%lift_Ok & H).
  apply bind_Ok in H as (? & ? & ->%set_column_Ok & H).
  apply bind_Ok in H as (date' & ? & [Hdate' ->]%column_Ok & H).
  apply bind_Ok in H as (month & ? & [Hmonth ->]%lift_Ok & H).
  apply bind_Ok in H as (? & ? & ->%set_column_Ok & H).
  apply bind_Ok in H as (? & ? & ->%len_Ok & H).
  apply bind_Ok in H as (? & ? & [_ ->]%column_Ok & H).
  apply bind_Ok in H as (? & ? & [_ ->]%lift_Ok & H).
  apply bind_Ok in H as (? & ? & [_ ->]%column_Ok & H).
  apply bind_Ok in H as (? & ? & [_ ->]%lift_Ok & H).
  apply bind_Ok in H as (? & ? & [_ ->]%read_Ok & H).
  apply bind_Ok in H as (? & ? & [_ ->]%lift_Ok & H).
  injection H as _ <-. simpl in *.
  rewrite assoc_replace_col_ne in Hdate' by done. simplify_eq.
  by exists date, year, month.
Qed.

(** [generate_visualizations] writes the YearMonth of TransactionDate to
    the transaction table and nothing else. *)
Lemma generate_visualizations_writes σ u σ1 :
  generate_visualizations Customers Products Transactions σ = Ok (u, σ1) →
  ∃ date year_month,
    assoc "TransactionDate" (columns (transactions σ)) = Some date
    ∧ dt_to_period_M date = Ok year_month
    ∧ σ1 = mkStore (customers σ) (products σ)
             (mkFrame (nrows (transactions σ))
                (replace_col "YearMonth" year_month
                   (columns (transactions σ)))).
Proof.
  unfold generate_visualizations. intros H.
  apply bind_Ok in H as (? & ? & ->%plotted_Ok & H).
  apply bind_Ok in H as (? & ? & ->%plotted_Ok & H).
  apply bind_Ok in H as (date & ? & [Hdate ->]%column_Ok & H).
  apply bind_Ok in H as (ym & ? & [Hym ->]%lift_Ok & H).
  apply bind_Ok in H as (? & ? & ->%set_column_Ok & H).
  apply bind_Ok in H as (? & ? & [_ ->]%read_Ok & H).
  apply bind_Ok in H as (? & ? & [_ ->]%lift_Ok & H).
  injection H as _ <-. simpl in *.
  by exists date, ym.
Qed.

Lemma analyze_Ok_store σ out σ1 :
  analyze_customer_behavior Customers Transactions σ = Ok (out, σ1) → σ1 = σ.
Proof.
  rewrite analyze_split.
  destruct (joined _ _); simpl; try done.
  destruct (aggregate _); simpl; try done. by intros [= _ <-].
Qed.

(** C9, as it holds.  A run leaves the customer and product tables as
    loaded.  To the transaction table it writes three columns computed
    from TransactionDate, namely Year, Month and YearMonth; the table keeps
    its rows and every column with another label. *)
Theorem run_writes_three_calendar_columns σ r σ' :
  main σ = Ok (r, σ') →
  customers σ' = customers σ
  ∧ products σ' = products σ
  ∧ nrows (transactions σ') = nrows (transactions σ)
  ∧ (∃ date,
       assoc "TransactionDate" (columns (transactions σ)) = Some date
       ∧ calendar_columns date (columns (transactions σ))
         = Ok (columns (transactions σ')))
  ∧ ∀ c, c ∉ ["Year"; "Month"; "YearMonth"] →
      assoc c (columns (transactions σ')) = assoc c (columns (transactions σ)).
Proof.
  unfold main. intros H.
  apply bind_Ok in H as ([[cm pm] tm] & σ1 & Heda & H).
  apply bind_Ok in H as (? & σ2 & Hviz & H).
  apply bind_Ok in H as (? & σ3 & ->%analyze_Ok_store & H).
  injection H as _ <-.
  apply perform_eda_writes in Heda
    as (date & year & month & Hdate & Hyear & Hmonth & ->).
  apply generate_visualizations_writes in Hviz
    as (date' & ym & Hdate' & Hym & ->).
  simpl in *. rewrite !assoc_replace_col_ne in Hdate' by done. simplify_eq.
  split_and!; try done.
  - exists date. split; [done|]. unfold calendar_columns.
    by rewrite Hyear, Hmonth, Hym.
  - intros c Hc. rewrite !assoc_replace_col_ne; [done|..];
      intros ->; apply Hc; solve_in.
Qed.

Lemma run_writes_three_calendar_columns_witness :
  ∃ r σ',
    main sample = Ok (r, σ')
    ∧ customers σ' = customers sample
    ∧ products σ' = products sample
    ∧ nrows (transactions σ') = nrows (transactions sample)
    ∧ (∃ date,
         assoc "TransactionDate" (columns (transactions sample)) = Some date
         ∧ calendar_columns date (columns (transactions sample))
           = Ok (columns (transactions σ')))
    ∧ ∀ c, c ∉ ["Year"; "Month"; "YearMonth"] →
        assoc c (columns (transactions σ'))
        = assoc c (columns (transactions sample)).
Proof.
  do 2 eexists. split; [vm_compute; reflexivity|].
  eapply (run_writes_three_calendar_columns sample). vm_compute; reflexivity.
Defined.

(** C9, as stated, fails.  After a run of the sample tables the
    transaction table has three more columns than it was loaded with:
    [generate_visualizations] has added YearMonth to the Year and Month of
    [perform_eda]. *)
Lemma run_adds_a_third_column :
  ∃ r σ',
    main sample = Ok (r, σ')
    ∧ labels (transactions σ')
      = labels (transactions sample) ++ ["Year"; "Month"; "YearMonth"]
    ∧ ¬ only_year_and_month_added sample σ'.
Proof.
  do 2 eexists. split; [vm_compute; reflexivity|].
  split; [reflexivity|].
  intros (_ & _ & _ & year & month & Hcols).
  apply (f_equal length) in Hcols. vm_compute in Hcols. discriminate.
Qed.

(** * The rest of the run *)

(** ** Running a computation forwards *)

Lemma bind_run {A B} (m : M A) (k : A → M B) σ a σ1 :
  m σ = Ok (a, σ1) → (m ≫= k) σ = k a σ1.
Proof. intros Hm. unfold mbind, M_bind, bind. by rewrite Hm. Qed.

Lemma lift_run {A} (o : outcome A) σ a : o = Ok a → lift o σ = Ok (a, σ).
Proof. by intros ->. Qed.

Lemma column_run r c σ s :
  assoc c (columns (deref r σ)) = Some s → column r c σ = Ok (s, σ).
Proof.
  intros Hs. unfold column, read, getitem, lift, mbind, M_bind, bind. simpl.
  by rewrite Hs.
Qed.

Lemma set_column_run r c s σ :
  series_len s = nrows (deref r σ) →
  set_column r c s σ
  = Ok (tt, assign r (mkFrame (nrows (deref r σ))
                        (replace_col c s (columns (deref r σ)))) σ).
Proof. intros Hlen. unfold set_column, setitem. by rewrite decide_True. Qed.

Lemma set_column_Ok_len r c s σ u σ1 :
  set_column r c s σ = Ok (u, σ1) → series_len s = nrows (deref r σ).
Proof. unfold set_column, setitem. by case_decide. Qed.

Lemma plotted_run r x σ :
  has_column (deref r σ) x = true → plotted r x σ = Ok (tt, σ).
Proof.
  intros Hx. unfold plotted, read, mbind, M_bind, bind. simpl. by rewrite Hx.
Qed.

Lemma plotted_Ok_column r x σ u σ1 :
  plotted r x σ = Ok (u, σ1) → has_column (deref r σ) x = true.
Proof.
  unfold plotted, read, mbind, M_bind, bind. simpl.
  by destruct (has_column _ _).
Qed.

Lemma assoc_replace_col_eq c s cols : assoc c (replace_col c s cols) = Some s.
Proof.
  induction cols as [|[d s'] cols IH]; simpl.
  - by rewrite decide_True.
  - destruct (decide (d = c)) as [->|Hne]; simpl.
    + by rewrite decide_True.
    + by rewrite decide_False.
Qed.

(** ** Calendar fields *)

Lemma int_field_len v : series_len (int_field v) = length v.
Proof.
  unfold int_field. destruct (mapM id v) as [zs|] eqn:Hzs; simpl.
  - by apply length_mapM in Hzs.
  - by rewrite length_fmap.
Qed.

Lemma dt_year_len s y : dt_year s = Ok y → series_len y = series_len s.
Proof.
  destruct s; simpl; try done; intros [= <-]; simpl;
    by rewrite ?int_field_len, length_fmap.
Qed.

Lemma dt_month_len s m : dt_month s = Ok m → series_len m = series_len s.
Proof.
  destruct s; simpl; try done; intros [= <-]; simpl;
    by rewrite ?int_field_len, length_fmap.
Qed.

Lemma dt_year_Ok s : is_datetimelike s = true ↔ ∃ y, dt_year s = Ok y.
Proof. destruct s; simpl; split; try done; eauto; by intros [? ?]. Qed.

Lemma dt_month_Ok s : is_datetimelike s = true ↔ ∃ m, dt_month s = Ok m.
Proof. destruct s; simpl; split; try done; eauto; by intros [? ?]. Qed.

Lemma series_sum_Ok s : is_numeric s = true ↔ ∃ x, series_sum s = Ok x.
Proof. destruct s; simpl; split; try done; eauto; by intros [? ?]. Qed.

Lemma series_mean_Ok s : is_numeric s = true ↔ ∃ x, series_mean s = Ok x.
Proof. destruct s; simpl; split; try done; eauto; by intros [? ?]. Qed.

Lemma groupby_sum_eq df key c k s :
  assoc key (columns df) = Some k → assoc c (columns df) = Some s →
  groupby_sum df key c
  = obind (reduce sum (factorize k).1 (series_len (factorize k).2) s)
      (λ r, Ok ((factorize k).2, r)).
Proof.
  intros Hk Hs. unfold groupby_sum, groupby, getitem. rewrite Hk. simpl.
  destruct (factorize k) as [cs idx]. simpl. by rewrite Hs.
Qed.

(** ** [perform_eda], step by step *)

Lemma perform_eda_Ok_iff σ r σ1 :
  perform_eda Customers Products Transactions σ = Ok (r, σ1)
  ↔ ∃ region signup signup_year category price date year month tv
      revenue average by_year,
      assoc "Region" (columns (customers σ)) = Some region
      ∧ assoc "SignupDate" (columns (customers σ)) = Some signup
      ∧ dt_year signup = Ok signup_year
      ∧ assoc "Category" (columns (products σ)) = Some category
      ∧ assoc "Price" (columns (products σ)) = Some price
      ∧ assoc "TransactionDate" (columns (transactions σ)) = Some date
      ∧ dt_year date = Ok year
      ∧ series_len year = nrows (transactions σ)
      ∧ dt_month date = Ok month
      ∧ assoc "TotalValue" (columns (transactions σ)) = Some tv
      ∧ series_sum tv = Ok revenue
      ∧ series_mean tv = Ok average
      ∧ reduce sum (factorize year).1 (series_len (factorize year).2) tv
        = Ok by_year
      ∧ r = (mkCustomerMetrics (nrows (customers σ))
               (value_counts_sorted signup_year),
             mkProductMetrics (nrows (products σ)),
             mkTransactionMetrics (nrows (transactions σ)) revenue average
               ((factorize year).2, by_year))
      ∧ σ1 = mkStore (customers σ) (products σ)
               (mkFrame (nrows (transactions σ))
                  (replace_col "Month" month
                     (replace_col "Year" year (columns (transactions σ))))).
Proof.
  split.
  - unfold perform_eda. intros H.
    apply bind_Ok in H as (? & ? & [= <- <-] & H).
    apply bind_Ok in H as (region & ? & [Hregion ->]%column_Ok & H).
    apply bind_Ok in H as (signup & ? & [Hsignup ->]%column_Ok & H).
    apply bind_Ok in H as (sy & ? & [Hsy ->]%lift_Ok & H).
    apply bind_Ok in H as (? & ? & [= <- <-] & H).
    apply bind_Ok in H as (category & ? & [Hcat ->]%column_Ok & H).
    apply bind_Ok in H as (price & ? & [Hprice ->]%column_Ok & H).
    apply bind_Ok in H as (date & ? & [Hdate ->]%column_Ok & H).
    apply bind_Ok in H as (year & ? & [Hyear ->]%lift_Ok & H).
    apply bind_Ok in H as (? & ? & Hset & H).
    pose proof (set_column_Ok_len _ _ _ _ _ _ Hset) as Hylen.
    apply set_column_Ok in Hset as ->.
    apply bind_Ok in H as (date' & ? & [Hdate' ->]%column_Ok & H).
    apply bind_Ok in H as (month & ? & [Hmonth ->]%lift_Ok & H).
    apply bind_Ok in H as (? & ? & ->%set_column_Ok & H).
    apply bind_Ok in H as (? & ? & [= <- <-] & H).
    apply bind_Ok in H as (tv & ? & [Htv ->]%column_Ok & H).
    apply bind_Ok in H as (rev & ? & [Hrev ->]%lift_Ok & H).
    apply bind_Ok in H as (tv' & ? & [Htv' ->]%column_Ok & H).
    apply bind_Ok in H as (avg & ? & [Havg ->]%lift_Ok & H).
    apply bind_Ok in H as (? & ? & [-> ->]%read_Ok & H).
    apply bind_Ok in H as (by_year & ? & [Hby ->]%lift_Ok & H).
    injection H as <- <-. simpl in *.
    rewrite assoc_replace_col_ne in Hdate' by done.
    rewrite !assoc_replace_col_ne in Htv, Htv' by done. simplify_eq.
    erewrite groupby_sum_eq in Hby; last first.
    { simpl. by rewrite !assoc_replace_col_ne. }
    { simpl. rewrite assoc_replace_col_ne by done.
      apply assoc_replace_col_eq. }
    destruct (reduce sum _ _ tv) as [by_year'| |] eqn:Hred; simplify_eq/=.
    by exists region, signup, sy, category, price, date, year, month, tv,
      rev, avg, by_year'.
  - intros (region & signup & sy & category & price & date & year & month
            & tv & rev & avg & by_year & Hregion & Hsignup & Hsy & Hcat
            & Hprice & Hdate & Hyear & Hylen & Hmonth & Htv & Hrev & Havg
            & Hby & -> & ->).
    assert (series_len month = nrows (transactions σ)) as Hmlen.
    { rewrite (dt_month_len _ _ Hmonth), <-(dt_year_len _ _ Hyear). done. }
    unfold perform_eda.
    erewrite bind_run; [|done].
    erewrite bind_run; [|by apply column_run].
    erewrite bind_run; [|by apply column_run].
    erewrite bind_run; [|by apply lift_run].
    erewrite bind_run; [|done].
    erewrite bind_run; [|by apply column_run].
    erewrite bind_run; [|by apply column_run].
    erewrite bind_run; [|by apply column_run].
    erewrite bind_run; [|by apply lift_run].
    erewrite bind_run; [|by apply set_column_run].
    erewrite bind_run; last first.
    { apply column_run. simpl. by rewrite assoc_replace_col_ne. }
    erewrite bind_run; [|by apply lift_run].
    erewrite bind_run; [|by apply set_column_run].
    erewrite bind_run; [|done].
    erewrite bind_run; last first.
    { apply column_run. simpl. by rewrite !assoc_replace_col_ne. }
    erewrite bind_run; [|by apply lift_run].
    erewrite bind_run; last first.
    { apply column_run. simpl. by rewrite !assoc_replace_col_ne. }
    erewrite bind_run; [|by apply lift_run].
    erewrite bind_run; [|done].
    erewrite bind_run; last first.
    { apply lift_run. simpl. erewrite groupby_sum_eq; last first.
      - simpl. by rewrite !assoc_replace_col_ne.
      - simpl. rewrite assoc_replace_col_ne by done.
        apply assoc_replace_col_eq.
      - by rewrite Hby. }
    done.
Qed.

(** ** Groups partition the rows *)

Section partition.
Context {A : Type} (op : A → A → A) (e : A).
Context `{!Assoc (=) op, !Comm (=) op, !LeftId (=) e op}.

Lemma foldr_units (l : list nat) : foldr op e ((λ _, e) <$> l) = e.
Proof.
  induction l as [|g l IH]; csimpl; [done|]. by rewrite IH, (left_id e op).
Qed.

Lemma foldr_pick (h : nat → A) a g0 (l : list nat) :
  NoDup l → g0 ∈ l →
  foldr op e ((λ g, if decide (g = g0) then op a (h g) else h g) <$> l)
  = op a (foldr op e (h <$> l)).
Proof.
  induction l as [|g l IH]; intros Hnd Hin; [by apply elem_of_nil in Hin|].
  apply NoDup_cons in Hnd as [Hg Hnd]. csimpl.
  destruct (decide (g = g0)) as [->|Hne].
  - rewrite <-(base.assoc op). do 3 f_equal.
    apply list_fmap_ext. intros i g Hlook.
    rewrite decide_False; [done|]. intros ->.
    apply Hg. by eapply list_elem_of_lookup_2.
  - apply elem_of_cons in Hin as [->|Hin]; [done|].
    rewrite IH by done. rewrite !(base.assoc op). f_equal. apply (comm op).
Qed.

(** Summing each group and then the groups is summing the rows that
    belong to a group. *)
Lemma groups_partition {V} (w : V → option A) cs (values : list V) n :
  Forall (λ c, ∀ g, c = Some g → (g < n)%nat) cs →
  foldr op e
    ((λ g, foldr op e (omap w (group_values cs values g))) <$> seq 0 n)
  = foldr op e (omap w (filter (λ cv, is_Some cv.1) (zip cs values)).*2).
Proof.
  intros Hcs. revert values.
  induction Hcs as [|c cs Hc Hcs IH]; intros values.
  { csimpl. apply foldr_units. }
  destruct values as [|x values].
  { csimpl. apply foldr_units. }
  unfold group_values in *. csimpl. rewrite filter_cons. csimpl.
  destruct c as [g0|].
  - rewrite decide_True by (csimpl; eauto). csimpl.
    assert (g0 ∈ seq 0 n) as Hin.
    { apply elem_of_seq. specialize (Hc g0 eq_refl). lia. }
    destruct (w x) as [a|] eqn:Hw; csimpl.
    + rewrite <-IH, <-(foldr_pick _ a g0) by (done || apply NoDup_seq).
      f_equal. apply list_fmap_ext. intros i g _. csimpl.
      rewrite filter_cons. csimpl.
      destruct (decide (g = g0)) as [->|Hne].
      * rewrite decide_True by done. csimpl. by rewrite Hw.
      * rewrite decide_False by congruence. done.
    + rewrite <-IH. f_equal. apply list_fmap_ext. intros i g _. csimpl.
      rewrite filter_cons. csimpl.
      destruct (decide (Some g0 = Some g)); csimpl; by rewrite ?Hw.
  - rewrite decide_False by (csimpl; apply is_Some_None).
    by rewrite <-IH.
Qed.

End partition.

Lemma filter_zip_all {V} (cs : list (option nat)) (values : list V) :
  Forall is_Some cs → (length values ≤ length cs)%nat →
  (filter (λ cv, is_Some cv.1) (zip cs values)).*2 = values.
Proof.
  intros Hcs. revert values.
  induction Hcs as [|c cs Hc Hcs IH]; intros [|x values] Hlen;
    simpl in *; try done; try lia.
  rewrite filter_cons. simpl. rewrite decide_True by done. csimpl.
  rewrite IH; [done|lia].
Qed.

Section codes.
Context {K : Type} `{EqDecision K} (R : relation K) `{!RelDecision R}.

Lemma code_in_bound (u : list K) k g : code_in u k = Some g → (g < length u)%nat.
Proof.
  destruct k as [k|]; [|done]. unfold code_in. simpl.
  intros ([i x] & (Hi & _)%list_find_Some & ->)%fmap_Some.
  by eapply lookup_lt_Some.
Qed.

Lemma codes_bound (keys : list (option K)) :
  Forall (λ c, ∀ g, c = Some g → (g < length (uniques R keys))%nat)
    (codes R keys).
Proof.
  unfold codes. apply Forall_fmap, Forall_forall. intros k _ g.
  apply code_in_bound.
Qed.

Lemma codes_present (keys : list (option K)) :
  Forall is_Some keys → Forall is_Some (codes R keys).
Proof.
  intros Hkeys. unfold codes. apply Forall_fmap, Forall_forall.
  intros k Hk. pose proof (proj1 (Forall_forall _ _) Hkeys k Hk) as [x ->].
  unfold code_in. simpl. apply fmap_is_Some.
  apply (list_find_elem_of _ _ x); [|done].
  unfold uniques. rewrite merge_sort_Permutation, elem_of_remove_dups.
  by apply notna_elem.
Qed.

End codes.

Lemma all_present_cells s : all_present s = true ↔ Forall is_Some (cells s).
Proof.
  unfold all_present. rewrite forallb_forall, Forall_forall.
  split; intros H c Hc.
  - apply list_elem_of_In in Hc. by apply H, bool_decide_eq_true in Hc.
  - apply bool_decide_eq_true, H. by apply list_elem_of_In.
Qed.

(** The grouper gives every row a code below the number of groups, and a
    code to every row whose key is present. *)
Lemma factorize_codes s :
  length (factorize s).1 = series_len s
  ∧ Forall (λ c, ∀ g, c = Some g → (g < series_len (factorize s).2)%nat)
      (factorize s).1
  ∧ (all_present s = true → Forall is_Some (factorize s).1).
Proof.
  rewrite all_present_cells.
  destruct s as [v|v|v|v|v]; simpl; unfold codes at 1;
    rewrite ?length_fmap; (split; [done|]); split.
  - apply codes_bound.
  - intros _. apply codes_present, Forall_fmap, Forall_true. by eexists.
  - apply codes_bound.
  - intros Hv. apply codes_present. rewrite Forall_fmap in Hv.
    eapply Forall_impl; [exact Hv|]. intros [?|] [? ?]; simplify_eq/=; eauto.
  - apply codes_bound.
  - intros Hv. apply codes_present. rewrite Forall_fmap in Hv.
    eapply Forall_impl; [exact Hv|]. intros [?|] [? ?]; simplify_eq/=; eauto.
  - apply codes_bound.
  - intros Hv. apply codes_present. rewrite Forall_fmap in Hv.
    eapply Forall_impl; [exact Hv|]. intros [?|] [? ?]; simplify_eq/=; eauto.
  - apply codes_bound.
  - intros Hv. apply codes_present. rewrite Forall_fmap in Hv.
    eapply Forall_impl; [exact Hv|]. intros [?|] [? ?]; simplify_eq/=; eauto.
Qed.

Lemma wrap64_add_r a b : wrap64 (a + wrap64 b) = wrap64 (a + b).
Proof. by rewrite Z.add_comm, wrap64_add_l, Z.add_comm. Qed.

Lemma wrap64_total_wraps {B} (f : B → Z) (l : list B) :
  wrap64 (total_Z ((λ g, wrap64 (f g)) <$> l)) = wrap64 (total_Z (f <$> l)).
Proof.
  induction l as [|g l IH]; csimpl; [done|].
  rewrite wrap64_add_l.
  rewrite <-wrap64_add_r, IH, wrap64_add_r. done.
Qed.

Lemma omap_Some {B} (l : list B) : omap Some l = l.
Proof. induction l; csimpl; by f_equal. Qed.

(** The sums of the groups add up to the sum of the column, when every
    row has a key. *)
Lemma sum_int64_groups cs (v : list Z) n :
  Forall (λ c, ∀ g, c = Some g → (g < n)%nat) cs →
  Forall is_Some cs → (length v ≤ length cs)%nat →
  sum_int64 (per_group n (λ g, sum_int64 (group_values cs v g)))
  = sum_int64 v.
Proof.
  intros Hbound Hall Hlen. rewrite !sum_int64_total. unfold per_group.
  erewrite list_fmap_ext; last first.
  { intros i g _. apply sum_int64_total. }
  rewrite wrap64_total_wraps. f_equal. unfold total_Z.
  erewrite list_fmap_ext; last first.
  { intros i g _. by rewrite <-(omap_Some (group_values cs v g)). }
  rewrite (groups_partition Z.add 0 Some cs v n Hbound).
  by rewrite omap_Some, filter_zip_all.
Qed.

Lemma sum_float64_groups cs (v : list (option Qc)) n :
  Forall (λ c, ∀ g, c = Some g → (g < n)%nat) cs →
  Forall is_Some cs → (length v ≤ length cs)%nat →
  sum_float64
    (per_group n (λ g, Some (sum_float64 (group_values cs v g))))
  = sum_float64 v.
Proof.
  intros Hbound Hall Hlen. rewrite (sum_float64_total v), sum_float64_total.
  unfold per_group. rewrite notna_Some. unfold total_Qc.
  erewrite list_fmap_ext; last first.
  { intros i g _. apply sum_float64_total. }
  unfold total_Qc, notna.
  rewrite (groups_partition Qcplus 0%Qc id cs v n Hbound).
  by rewrite filter_zip_all.
Qed.

(** The same for the result of the reduction. *)
Lemma reduce_sum_adds_up k s r :
  reduce sum (factorize k).1 (series_len (factorize k).2) s = Ok r →
  all_present k = true →
  (series_len s ≤ series_len k)%nat →
  series_sum r = series_sum s.
Proof.
  intros Hr Hk Hlen.
  destruct (factorize_codes k) as (Hcl & Hbound & Hall).
  specialize (Hall Hk). rewrite <-Hcl in Hlen.
  unfold reduce in Hr. destruct s as [v|v|[|x v]|v|v]; simplify_eq/=.
  - by rewrite sum_int64_groups.
  - by rewrite sum_float64_groups.
  - by case_decide; simplify_eq/=.
Qed.


Lemma replace_col_id c s cols :
  assoc c cols = Some s → replace_col c s cols = cols.
Proof.
  induction cols as [|[d s'] cols IH]; simpl; [done|].
  destruct (decide (d = c)) as [->|Hne].
  - by intros [= ->].
  - intros Hs. by rewrite IH.
Qed.

Lemma has_column_assoc df c : has_column df c = true ↔ ∃ s, assoc c (columns df) = Some s.
Proof. apply has_column_true. Qed.

(** ** What [perform_eda] needs and returns *)

Lemma perform_eda_total σ :
  wf_frame (transactions σ) = true → eda_ok σ = true →
  ∃ r σ1, perform_eda Customers Products Transactions σ = Ok (r, σ1).
Proof.
  intros Hwf. unfold eda_ok. rewrite !andb_true_iff, !has_column_assoc.
  intros [[[[[[[[[region Hregion] [signup Hsignup]] Hsd] [category Hcat]]
              [price Hprice]] [date Hdate]] Hdd] [tv Htv]] Hnum].
  rewrite (column_is_assoc _ _ _ _ Hsignup) in Hsd.
  rewrite (column_is_assoc _ _ _ _ Hdate) in Hdd.
  rewrite (column_is_assoc _ _ _ _ Htv) in Hnum.
  apply dt_year_Ok in Hsd as [sy Hsy].
  pose proof Hdd as [year Hyear]%dt_year_Ok.
  apply dt_month_Ok in Hdd as [month Hmonth].
  pose proof Hnum as [rev Hrev]%series_sum_Ok.
  pose proof Hnum as [avg Havg]%series_mean_Ok.
  destruct (reduce_numeric sum (factorize year).1
              (series_len (factorize year).2) tv Hnum) as [by_year Hby].
  do 2 eexists. apply perform_eda_Ok_iff.
  exists region, signup, sy, category, price, date, year, month, tv, rev,
    avg, by_year.
  split_and!; try done.
  rewrite (dt_year_len _ _ Hyear). by eapply wf_frame_len.
Qed.

Lemma perform_eda_needs σ r σ1 :
  perform_eda Customers Products Transactions σ = Ok (r, σ1) →
  eda_ok σ = true.
Proof.
  intros (region & signup & sy & category & price & date & year & month
          & tv & rev & avg & by_year & Hregion & Hsignup & Hsy & Hcat
          & Hprice & Hdate & Hyear & Hylen & Hmonth & Htv & Hrev & Havg
          & Hby & -> & ->)%perform_eda_Ok_iff.
  unfold eda_ok. rewrite !andb_true_iff, !has_column_assoc.
  rewrite (column_is_assoc _ _ _ _ Hsignup), (column_is_assoc _ _ _ _ Hdate),
    (column_is_assoc _ _ _ _ Htv).
  split_and!; eauto.
  - apply dt_year_Ok. eauto.
  - apply dt_year_Ok. eauto.
  - apply series_sum_Ok. eauto.
Qed.

(** X1.  Take a well-formed transaction table whose TotalValue column,
    if it has one, is numeric.  Then [perform_eda] returns exactly when
    the customer table has Region and a datetimelike SignupDate, the
    product table has Category and Price, and the transaction table has a
    datetimelike TransactionDate and a TotalValue. *)
Theorem perform_eda_succeeds_iff σ :
  wf_frame (transactions σ) = true →
  column_is is_numeric (transactions σ) "TotalValue" = true →
  (∃ r σ1, perform_eda Customers Products Transactions σ = Ok (r, σ1))
  ↔ eda_ok σ = true.
Proof.
  intros Hwf _. split.
  - intros (r & σ1 & Hrun). by eapply perform_eda_needs.
  - by apply perform_eda_total.
Qed.

Lemma perform_eda_succeeds_iff_witness :
  wf_frame (transactions sample) = true
  ∧ column_is is_numeric (transactions sample) "TotalValue" = true
  ∧ ((∃ r σ1, perform_eda Customers Products Transactions sample
              = Ok (r, σ1))
     ↔ eda_ok sample = true).
Proof.
  split_and!; [reflexivity..|].
  apply (perform_eda_succeeds_iff sample); reflexivity.
Defined.

(** X2.  For an integer TotalValue column whose values add up, in
    absolute value, to at most 2^53, the total revenue that [perform_eda]
    reports is the sum of the column, and its average transaction value
    is that total divided by the number of transactions; the average is
    missing exactly when there is no transaction. *)
Theorem average_is_revenue_over_count σ cm pm tm σ1 v :
  perform_eda Customers Products Transactions σ = Ok ((cm, pm, tm), σ1) →
  assoc "TotalValue" (columns (transactions σ)) = Some (int64 v) →
  total_Z (Z.abs <$> v) ≤ 2 ^ 53 →
  total_revenue tm = SInt (total_Z v)
  ∧ match avg_transaction_value tm with
    | Some a =>
        v ≠ []
        ∧ a = (Qc_of_Z (total_Z v) / Qc_of_Z (Z.of_nat (length v)))%Qc
    | None => v = []
    end.
Proof.
  intros (region & signup & sy & category & price & date & year & month
          & tv & rev & avg & by_year & _ & _ & _ & _ & _ & _ & _ & _ & _
          & Htv & Hrev & Havg & _ & Hr & _)%perform_eda_Ok_iff Hv Hexact.
  simplify_eq/=. pose proof (total_Z_abs v). split.
  - by rewrite sum_int64_total, wrap64_small by lia.
  - unfold mean_int64.
    rewrite mean_of_quotient, total_Qc_of_Z, length_fmap.
    by destruct v.
Qed.

Lemma average_is_revenue_over_count_witness :
  ∃ cm pm tm σ1,
    perform_eda Customers Products Transactions sample_whole
    = Ok ((cm, pm, tm), σ1)
    ∧ assoc "TotalValue" (columns (transactions sample_whole))
      = Some (int64 [20; 5; 30])
    ∧ total_Z (Z.abs <$> [20; 5; 30]) ≤ 2 ^ 53
    ∧ total_revenue tm = SInt (total_Z [20; 5; 30])
    ∧ match avg_transaction_value tm with
      | Some a =>
          [20; 5; 30] ≠ []
          ∧ a = (Qc_of_Z (total_Z [20; 5; 30])
                 / Qc_of_Z (Z.of_nat (length [20; 5; 30])))%Qc
      | None => [20; 5; 30] = []
      end.
Proof.
  do 4 eexists. split; [vm_compute; reflexivity|]. split; [reflexivity|].
  split; [vm_compute; discriminate|].
  eapply (average_is_revenue_over_count sample_whole); [vm_compute| |];
    [reflexivity..|vm_compute; discriminate].
Defined.



Lemma int_field_present v : Forall is_Some v → all_present (int_field v) = true.
Proof.
  intros Hv. apply all_present_cells. unfold int_field.
  destruct (mapM id v) as [zs|] eqn:Hzs; simpl.
  - apply Forall_fmap, Forall_true. by eexists.
  - apply mapM_None in Hzs. exfalso.
    apply Exists_exists in Hzs as (o & Ho & Hnone).
    pose proof (proj1 (Forall_forall _ _) Hv o Ho) as [? ->]. done.
Qed.

Lemma dt_year_present s y :
  dt_year s = Ok y → all_present s = true → all_present y = true.
Proof.
  rewrite all_present_cells.
  destruct s as [v|v|v|v|v]; simpl; try done; intros [= <-] Hv.
  - apply int_field_present. rewrite Forall_fmap in Hv.
    rewrite Forall_fmap.
    (eapply Forall_impl; [exact Hv|]); intros [?|] [? ?];
      simplify_eq/=; eauto.
  - apply all_present_cells. simpl. apply Forall_fmap, Forall_true.
    by eexists.
Qed.

(** X4.  For an integer TotalValue column, when no transaction lacks its
    date, the yearly revenues that [perform_eda] reports add up to the
    total revenue it reports, in 64-bit arithmetic like the sums
    themselves. *)
Theorem yearly_revenue_adds_up σ cm pm tm σ1 date v :
  perform_eda Customers Products Transactions σ = Ok ((cm, pm, tm), σ1) →
  wf_frame (transactions σ) = true →
  assoc "TransactionDate" (columns (transactions σ)) = Some date →
  all_present date = true →
  assoc "TotalValue" (columns (transactions σ)) = Some (int64 v) →
  ∃ revenues,
    (revenue_by_year tm).2 = int64 revenues
    ∧ total_revenue tm = SInt (wrap64 (total_Z v))
    ∧ wrap64 (total_Z revenues) = wrap64 (total_Z v).
Proof.
  intros (region & signup & sy & category & price & date' & year & month
          & tv & rev & avg & by_year & _ & _ & _ & _ & _ & Hdate & Hyear
          & Hylen & _ & Htv & Hrev & _ & Hby & Hr & _)%perform_eda_Ok_iff
    Hwf Hdate' Hpresent Hv.
  pose proof (wf_frame_len _ _ _ Hwf Htv) as Hvlen.
  simplify_eq/=.
  pose proof (reduce_sum_adds_up year (int64 v) by_year Hby) as Hsum.
  unfold reduce in Hby. simplify_eq/=. eexists. split; [done|].
  rewrite sum_int64_total. split; [done|].
  rewrite <-!sum_int64_total.
  assert (Ok (SInt (sum_int64
                      (per_group (series_len (factorize year).2)
                         (λ g, sum_int64
                                 (group_values (factorize year).1 v g)))))
          = Ok (SInt (sum_int64 v))) as [= ->]; [|done].
  apply Hsum; [by eapply dt_year_present|].
  simpl. by rewrite Hylen, Hvlen.
Qed.

Lemma yearly_revenue_adds_up_witness :
  ∃ cm pm tm σ1 date,
    perform_eda Customers Products Transactions sample_whole
    = Ok ((cm, pm, tm), σ1)
    ∧ wf_frame (transactions sample_whole) = true
    ∧ assoc "TransactionDate" (columns (transactions sample_whole))
      = Some date
    ∧ all_present date = true
    ∧ ∃ revenues,
        (revenue_by_year tm).2 = int64 revenues
        ∧ total_revenue tm = SInt (wrap64 (total_Z [20; 5; 30]))
        ∧ wrap64 (total_Z revenues) = wrap64 (total_Z [20; 5; 30]).
Proof.
  do 5 eexists. split; [vm_compute; reflexivity|].
  split; [reflexivity|]. split; [reflexivity|]. split; [reflexivity|].
  eapply (yearly_revenue_adds_up sample_whole); [vm_compute| | | |];
    reflexivity.
Defined.

(** A store whose transaction table already holds the Year and Month that
    [perform_eda] would write is left as it is. *)
Lemma perform_eda_fixpoint σ r σ1 σ2 :
  perform_eda Customers Products Transactions σ = Ok (r, σ1) →
  customers σ2 = customers σ → products σ2 = products σ →
  nrows (transactions σ2) = nrows (transactions σ) →
  (∀ c, c ≠ "YearMonth" →
        assoc c (columns (transactions σ2))
        = assoc c (columns (transactions σ1))) →
  perform_eda Customers Products Transactions σ2 = Ok (r, σ2).
Proof.
  intros (region & signup & sy & category & price & date & year & month
          & tv & rev & avg & by_year & Hregion & Hsignup & Hsy & Hcat
          & Hprice & Hdate & Hyear & Hylen & Hmonth & Htv & Hrev & Havg
          & Hby & -> & ->)%perform_eda_Ok_iff Hc Hp Hn Hcols.
  simpl in Hcols.
  assert (∀ c, c ≠ "YearMonth" → c ≠ "Year" → c ≠ "Month" →
               assoc c (columns (transactions σ2))
               = assoc c (columns (transactions σ))) as Hother.
  { intros c ? ? ?. rewrite Hcols by done.
    by rewrite !assoc_replace_col_ne. }
  assert (assoc "Year" (columns (transactions σ2)) = Some year) as Hy2.
  { rewrite Hcols by done.
    by rewrite assoc_replace_col_ne, assoc_replace_col_eq. }
  assert (assoc "Month" (columns (transactions σ2)) = Some month) as Hm2.
  { rewrite Hcols by done. by rewrite assoc_replace_col_eq. }
  apply perform_eda_Ok_iff.
  exists region, signup, sy, category, price, date, year, month, tv, rev,
    avg, by_year.
  rewrite Hc, Hp, Hn, !Hother by done.
  split_and!; try done.
  rewrite (replace_col_id "Year") by done.
  rewrite (replace_col_id "Month") by done.
  destruct σ2 as [c2 p2 [n2 cols2]]. simpl in *. by subst.
Qed.

(** X5.  [perform_eda] is idempotent: called again on the tables it has
    left, it returns the same summaries and leaves the tables as they
    are. *)
Theorem perform_eda_idempotent σ r σ1 :
  perform_eda Customers Products Transactions σ = Ok (r, σ1) →
  perform_eda Customers Products Transactions σ1 = Ok (r, σ1).
Proof.
  intros Hrun. apply (perform_eda_fixpoint σ r σ1 σ1 Hrun); try done;
    apply perform_eda_Ok_iff in Hrun
      as (? & ? & ? & ? & ? & ? & ? & ? & ? & ? & ? & ? & Hrest);
    by destruct Hrest as (_ & _ & _ & _ & _ & _ & _ & _ & _ & _ & _ & _ & _
                          & _ & ->).
Qed.

Lemma perform_eda_idempotent_witness :
  ∃ r σ1,
    perform_eda Customers Products Transactions sample = Ok (r, σ1)
    ∧ perform_eda Customers Products Transactions σ1 = Ok (r, σ1).
Proof.
  do 2 eexists. split; [vm_compute; reflexivity|].
  apply (perform_eda_idempotent sample). vm_compute; reflexivity.
Defined.

(** ** [generate_visualizations], step by step *)

Lemma generate_visualizations_Ok_iff σ u σ1 :
  generate_visualizations Customers Products Transactions σ = Ok (u, σ1)
  ↔ has_column (customers σ) "Region" = true
    ∧ has_column (products σ) "Price" = true
    ∧ ∃ date year_month tv monthly,
        assoc "TransactionDate" (columns (transactions σ)) = Some date
        ∧ dt_to_period_M date = Ok year_month
        ∧ series_len year_month = nrows (transactions σ)
        ∧ assoc "TotalValue" (columns (transactions σ)) = Some tv
        ∧ reduce sum (factorize year_month).1
            (series_len (factorize year_month).2) tv = Ok monthly
        ∧ σ1 = mkStore (customers σ) (products σ)
                 (mkFrame (nrows (transactions σ))
                    (replace_col "YearMonth" year_month
                       (columns (transactions σ)))).
Proof.
  split.
  - unfold generate_visualizations. intros H.
    apply bind_Ok in H as (? & ? & Hregion & H).
    pose proof (plotted_Ok_column _ _ _ _ _ Hregion) as Hr.
    apply plotted_Ok in Hregion as ->.
    apply bind_Ok in H as (? & ? & Hprice & H).
    pose proof (plotted_Ok_column _ _ _ _ _ Hprice) as Hp.
    apply plotted_Ok in Hprice as ->.
    apply bind_Ok in H as (date & ? & [Hdate ->]%column_Ok & H).
    apply bind_Ok in H as (ym & ? & [Hym ->]%lift_Ok & H).
    apply bind_Ok in H as (? & ? & Hset & H).
    pose proof (set_column_Ok_len _ _ _ _ _ _ Hset) as Hlen.
    apply set_column_Ok in Hset as ->.
    apply bind_Ok in H as (? & ? & [-> ->]%read_Ok & H).
    apply bind_Ok in H as (monthly & ? & [Hby ->]%lift_Ok & H).
    injection H as <-. simpl in *.
    destruct (assoc "TotalValue" (columns (transactions σ))) as [tv|] eqn:Htv.
    + erewrite groupby_sum_eq in Hby; last first.
      { simpl. by rewrite assoc_replace_col_ne. }
      { simpl. apply assoc_replace_col_eq. }
      destruct (reduce sum _ _ tv) as [monthly'| |] eqn:Hred; simplify_eq/=.
      split_and!; try done. by exists date, ym, tv, monthly'.
    + unfold groupby_sum, groupby, getitem in Hby. simpl in Hby.
      rewrite assoc_replace_col_eq in Hby. simpl in Hby.
      destruct (factorize ym). simpl in Hby.
      rewrite assoc_replace_col_ne, Htv in Hby by done. done.
  - intros (Hr & Hp & date & ym & tv & monthly & Hdate & Hym & Hlen & Htv
            & Hby & ->).
    destruct u. unfold generate_visualizations.
    erewrite bind_run; [|by apply plotted_run].
    erewrite bind_run; [|by apply plotted_run].
    erewrite bind_run; [|by apply column_run].
    erewrite bind_run; [|by apply lift_run].
    erewrite bind_run; [|by apply set_column_run].
    erewrite bind_run; [|done].
    erewrite bind_run; last first.
    { apply lift_run. simpl. erewrite groupby_sum_eq; last first.
      - simpl. by rewrite assoc_replace_col_ne.
      - simpl. apply assoc_replace_col_eq.
      - by rewrite Hby. }
    done.
Qed.

(** ** Year, month and monthly period of a timestamp *)

Lemma civil_month_range days : 1 ≤ (civil_from_days days).2 ≤ 12.
Proof.
  unfold civil_from_days. cbv zeta. simpl snd.
  set (z := days + 719468).
  set (doe := z - z `div` 146097 * 146097).
  assert (0 ≤ doe < 146097) as Hdoe.
  { unfold doe. pose proof (Z.mod_pos_bound z 146097) as Hmod.
    rewrite Z.mod_eq in Hmod by lia. lia. }
  clearbody doe. clear z.
  set (yoe := (doe - doe `div` 1460 + doe `div` 36524 - doe `div` 146096)
                `div` 365).
  set (doy := doe - (365 * yoe + yoe `div` 4 - yoe `div` 100)).
  assert (0 ≤ doy ≤ 365) as Hdoy.
  { unfold doy, yoe. Z.div_mod_to_equations; lia. }
  clearbody doy.
  case_decide; Z.div_mod_to_equations; lia.
Qed.

Lemma period_of_timestamp_fields t :
  year_of_period (period_of_timestamp t) = year_of_timestamp t
  ∧ month_of_period (period_of_timestamp t) = month_of_timestamp t
  ∧ 1 ≤ month_of_timestamp t ≤ 12.
Proof.
  unfold year_of_period, month_of_period, period_of_timestamp,
    month_of_timestamp, year_of_timestamp.
  pose proof (civil_month_range (t `div` ns_per_day)) as Hm.
  destruct (civil_from_days (t `div` ns_per_day)) as [y m]. simpl in *.
  split_and!; [| |lia..]; Z.div_mod_to_equations; lia.
Qed.

(** ** The aggregation and the calendar columns *)

(** The aggregation looks at four columns of the transaction table. *)
Lemma aggregate_ext t t2 :
  (∀ c, c ∈ ["CustomerID"; "TransactionID"; "TotalValue"; "Quantity"] →
        assoc c (columns t2) = assoc c (columns t)) →
  aggregate t2 = aggregate t.
Proof.
  intros Hcols. unfold aggregate, groupby, getitem.
  rewrite (Hcols "CustomerID") by solve_in.
  destruct (assoc "CustomerID" _) as [key|]; simpl; [|done].
  destruct (factorize key) as [cs idx]. simpl. unfold agg, getitem. simpl.
  rewrite !filter_cons, filter_nil.
  rewrite (Hcols "TransactionID"), (Hcols "TotalValue"),
    (Hcols "Quantity") by solve_in.
  done.
Qed.

Lemma labels_replace_col c s cols :
  ∃ l, (replace_col c s cols).*1 = cols.*1 ++ l.
Proof.
  induction cols as [|[d s'] cols [l IH]]; simpl.
  - by exists [c].
  - case_decide; subst; csimpl.
    + exists []. by rewrite app_nil_r.
    + exists l. by rewrite IH.
Qed.

(** If the call returns for a transaction table with more columns to the
    right, it returns the same for the table without them. *)
Lemma analyze_prefix σ σ2 out l :
  customers σ2 = customers σ →
  (∀ c, c ∈ ["CustomerID"; "TransactionID"; "TotalValue"; "Quantity"] →
        assoc c (columns (transactions σ2))
        = assoc c (columns (transactions σ))) →
  labels (transactions σ2) = labels (transactions σ) ++ l →
  analyze_customer_behavior Customers Transactions σ2 = Ok (out, σ2) →
  result (analyze_customer_behavior Customers Transactions σ) = Ok out.
Proof.
  intros Hc Hcols Hlabels (_ & [j Hj] & Hagg)%analyze_Ok_inv.
  apply joined_Ok_inv in Hj
    as (kc & region & kt & Hkc & Hr & Hkt & Hverdict & Hdups).
  rewrite (aggregate_ext (transactions σ)) in Hagg by done.
  rewrite Hc in Hkc, Hr. rewrite (Hcols "CustomerID") in Hkt by solve_in.
  rewrite analyze_split.
  destruct (joined_eq _ _ _ _ _ Hkc Hr Hkt) as [j' ->].
  rewrite Hverdict.
  assert (merge_dups (transactions σ) = []) as ->.
  { unfold merge_dups in *. rewrite Hlabels, fmap_app in Hdups.
    destruct (suffix_dups_app (labels (transactions σ)) l
                (suffixed ["CustomerID"; "Region"] "CustomerID" "_x"
                   <$> labels (transactions σ))
                (suffixed ["CustomerID"; "Region"] "CustomerID" "_x" <$> l))
      as [rest Hrest]; [by rewrite length_fmap|].
    rewrite Hrest in Hdups. by apply app_eq_nil in Hdups as [? _]. }
  simpl. by rewrite Hagg.
Qed.

(** ** The run, step by step *)

Lemma main_Ok_iff σ r σ' :
  main σ = Ok (r, σ')
  ↔ ∃ cm pm tm σ1 out,
      perform_eda Customers Products Transactions σ = Ok ((cm, pm, tm), σ1)
      ∧ generate_visualizations Customers Products Transactions σ1
        = Ok (tt, σ')
      ∧ analyze_customer_behavior Customers Transactions σ' = Ok (out, σ')
      ∧ r = mkResults cm pm tm out.
Proof.
  unfold main. split.
  - intros H.
    apply bind_Ok in H as ([[cm pm] tm] & σ1 & Heda & H).
    apply bind_Ok in H as ([] & σ2 & Hviz & H).
    apply bind_Ok in H as (out & σ3 & Hrun & H).
    injection H as <- <-.
    pose proof (analyze_Ok_store _ _ _ Hrun) as ->.
    by exists cm, pm, tm, σ1, out.
  - intros (cm & pm & tm & σ1 & out & Heda & Hviz & Hrun & ->).
    erewrite bind_run; [|done]. simpl.
    erewrite bind_run; [|done].
    erewrite bind_run; [|done].
    done.
Qed.

(** After the two earlier steps the transaction table differs from the
    loaded one in the three calendar columns only. *)
Lemma before_analysis_store σ r1 σ1 σ2 :
  perform_eda Customers Products Transactions σ = Ok (r1, σ1) →
  generate_visualizations Customers Products Transactions σ1 = Ok (tt, σ2) →
  customers σ2 = customers σ
  ∧ products σ2 = products σ
  ∧ nrows (transactions σ2) = nrows (transactions σ)
  ∧ (∀ c, c ≠ "YearMonth" →
          assoc c (columns (transactions σ2))
          = assoc c (columns (transactions σ1)))
  ∧ (∀ c, c ≠ "Year" → c ≠ "Month" → c ≠ "YearMonth" →
          assoc c (columns (transactions σ2))
          = assoc c (columns (transactions σ)))
  ∧ ∃ l, labels (transactions σ2) = labels (transactions σ) ++ l.
Proof.
  intros (region & signup & sy & category & price & date & year & month
          & tv & rev & avg & by_year & _ & _ & _ & _ & _ & _ & _ & _ & _ & _
          & _ & _ & _ & _ & ->)%perform_eda_Ok_iff.
  intros (_ & _ & date' & ym & tv' & monthly & _ & _ & _ & _ & _ & ->)
    %generate_visualizations_Ok_iff.
  simpl. split_and!; try done.
  - intros c ?. by rewrite assoc_replace_col_ne.
  - intros c ? ? ?. by rewrite !assoc_replace_col_ne.
  - unfold labels. simpl.
    destruct (labels_replace_col "Year" year (columns (transactions σ)))
      as [l1 H1].
    destruct (labels_replace_col "Month" month
                (replace_col "Year" year (columns (transactions σ))))
      as [l2 H2].
    destruct (labels_replace_col "YearMonth" ym
                (replace_col "Month" month
                   (replace_col "Year" year (columns (transactions σ)))))
      as [l3 H3].
    exists (l1 ++ l2 ++ l3). rewrite H3, H2, H1.
    by rewrite <-!(assoc_L (++)).
Qed.

Lemma count_as_sum {B} (l : list (option B)) :
  count_notna l = foldr Z.add 0 (omap (λ c : option B, (λ _, 1) <$> c) l).
Proof.
  unfold count_notna, notna.
  induction l as [|[x|] l IH]; csimpl; [done| |done].
  rewrite <-IH. lia.
Qed.

(** The counts of the groups add up to the number of values present, when
    every row has a key. *)
Lemma count_groups {B} cs (l : list (option B)) n :
  Forall (λ c, ∀ g, c = Some g → (g < n)%nat) cs →
  Forall is_Some cs → (length l ≤ length cs)%nat →
  total_Z (per_group n (λ g, count_notna (group_values cs l g)))
  = count_notna l.
Proof.
  intros Hbound Hall Hlen. unfold total_Z, per_group.
  erewrite list_fmap_ext; last first.
  { intros i g _. apply count_as_sum. }
  rewrite (groups_partition Z.add 0 _ cs l n Hbound).
  by rewrite filter_zip_all, <-count_as_sum.
Qed.

Lemma count_notna_present {B} (l : list (option B)) :
  Forall is_Some l → count_notna l = Z.of_nat (length l).
Proof.
  intros Hl. unfold count_notna, notna. f_equal.
  induction Hl as [|? l [x ->] _ IH]; csimpl; by rewrite ?IH.
Qed.

(** ** Properties of a whole run *)

(** X6.  After a run, the Year, Month and YearMonth columns of the
    transaction table agree row by row: where a transaction has a date,
    its Year and Month are the year and the month of its YearMonth period
    and the month is between 1 and 12; where it has none, all three are
    missing. *)
Theorem calendar_columns_agree σ r σ' :
  main σ = Ok (r, σ') →
  ∃ years months periods,
    assoc "Year" (columns (transactions σ')) = Some (int_field years)
    ∧ assoc "Month" (columns (transactions σ')) = Some (int_field months)
    ∧ assoc "YearMonth" (columns (transactions σ')) = Some (period_M periods)
    ∧ length periods = nrows (transactions σ)
    ∧ ∀ i p, periods !! i = Some p →
        match p with
        | Some p =>
            years !! i = Some (Some (year_of_period p))
            ∧ months !! i = Some (Some (month_of_period p))
            ∧ 1 ≤ month_of_period p ≤ 12
        | None => years !! i = Some None ∧ months !! i = Some None
        end.
Proof.
  intros (cm & pm & tm & σ1 & out & Heda & Hviz & _ & _)%main_Ok_iff.
  apply perform_eda_Ok_iff in Heda
    as (region & signup & sy & category & price & date & year & month
        & tv & rev & avg & by_year & _ & _ & _ & _ & _ & Hdate & Hyear & _
        & Hmonth & _ & _ & _ & _ & _ & ->).
  apply generate_visualizations_Ok_iff in Hviz
    as (_ & _ & date' & ym & tv' & monthly & Hdate' & Hym & Hlen & _ & _
        & ->).
  simpl in *. rewrite !assoc_replace_col_ne in Hdate' by done.
  simplify_eq. destruct date as [v|v|v|v|v]; simplify_eq/=.
  exists ((λ o : option Z, year_of_timestamp <$> o) <$> v),
    ((λ o : option Z, month_of_timestamp <$> o) <$> v),
    ((λ o : option Z, period_of_timestamp <$> o) <$> v).
  rewrite assoc_replace_col_ne, assoc_replace_col_ne, assoc_replace_col_eq
    by done.
  rewrite assoc_replace_col_ne, assoc_replace_col_eq by done.
  rewrite assoc_replace_col_eq.
  split_and!; try done.
  intros i p. rewrite !list_lookup_fmap.
  destruct (v !! i) as [[t|]|]; simpl; intros [= <-]; [|done].
  destruct (period_of_timestamp_fields t) as (-> & -> & ?). done.
Qed.

Lemma calendar_columns_agree_witness :
  ∃ r σ',
    main sample = Ok (r, σ')
    ∧ ∃ years months periods,
        assoc "Year" (columns (transactions σ')) = Some (int_field years)
        ∧ assoc "Month" (columns (transactions σ'))
          = Some (int_field months)
        ∧ assoc "YearMonth" (columns (transactions σ'))
          = Some (period_M periods)
        ∧ length periods = nrows (transactions sample)
        ∧ ∀ i p, periods !! i = Some p →
            match p with
            | Some p =>
                years !! i = Some (Some (year_of_period p))
                ∧ months !! i = Some (Some (month_of_period p))
                ∧ 1 ≤ month_of_period p ≤ 12
            | None => years !! i = Some None ∧ months !! i = Some None
            end.
Proof.
  do 2 eexists. split; [vm_compute; reflexivity|].
  eapply (calendar_columns_agree sample). vm_compute; reflexivity.
Defined.

(** X8.  The behaviour table among the results of a run is the table the
    aggregator computes from the tables as loaded: the calendar columns
    that the earlier steps write to the transaction table make no
    difference to it. *)
Theorem run_behaviour_is_that_of_loaded_tables σ r σ' :
  main σ = Ok (r, σ') →
  result (analyze_customer_behavior Customers Transactions σ)
  = Ok (res_customer_behavior r).
Proof.
  intros (cm & pm & tm & σ1 & out & Heda & Hviz & Hrun & ->)%main_Ok_iff.
  destruct (before_analysis_store _ _ _ _ Heda Hviz)
    as (Hc & _ & _ & _ & Hcols & l & Hlabels).
  apply (analyze_prefix σ σ' out l); try done.
  intros c Hin%list_elem_of_In. simpl in Hin.
  destruct Hin as [<-|[<-|[<-|[<-|[]]]]]; by apply Hcols.
Qed.

Lemma run_behaviour_is_that_of_loaded_tables_witness :
  ∃ r σ',
    main sample = Ok (r, σ')
    ∧ result (analyze_customer_behavior Customers Transactions sample)
      = Ok (res_customer_behavior r).
Proof.
  do 2 eexists. split; [vm_compute; reflexivity|].
  eapply (run_behaviour_is_that_of_loaded_tables sample).
  vm_compute; reflexivity.
Defined.

Lemma generate_visualizations_fixpoint σ1 σ2 :
  generate_visualizations Customers Products Transactions σ1 = Ok (tt, σ2) →
  generate_visualizations Customers Products Transactions σ2 = Ok (tt, σ2).
Proof.
  intros (Hr & Hp & date & ym & tv & monthly & Hdate & Hym & Hlen & Htv
          & Hby & ->)%generate_visualizations_Ok_iff.
  apply generate_visualizations_Ok_iff. simpl.
  split_and!; try done.
  exists date, ym, tv, monthly.
  rewrite !assoc_replace_col_ne by done. split_and!; try done.
  rewrite (replace_col_id "YearMonth" ym (replace_col "YearMonth" ym _));
    [done|].
  apply assoc_replace_col_eq.
Qed.

(** X9.  A run is idempotent: started again from the tables it has left,
    it returns the same results and leaves the tables as they are. *)
Theorem main_idempotent σ r σ' :
  main σ = Ok (r, σ') → main σ' = Ok (r, σ').
Proof.
  intros (cm & pm & tm & σ1 & out & Heda & Hviz & Hrun & ->)%main_Ok_iff.
  destruct (before_analysis_store _ _ _ _ Heda Hviz)
    as (Hc & Hp & Hn & Hcols & _ & _).
  apply main_Ok_iff. exists cm, pm, tm, σ', out. split_and!; try done.
  - by apply (perform_eda_fixpoint σ _ σ1).
  - by eapply generate_visualizations_fixpoint.
Qed.

Lemma main_idempotent_witness :
  ∃ r σ', main sample = Ok (r, σ') ∧ main σ' = Ok (r, σ').
Proof.
  do 2 eexists. split; [vm_compute; reflexivity|].
  apply (main_idempotent sample). vm_compute; reflexivity.
Defined.

(** X10.  For an integer TotalValue column, when no transaction lacks
    its customer identifier, the total spends of the behaviour table add
    up to the total revenue that [perform_eda] reports, in 64-bit
    arithmetic like the sums themselves. *)
Theorem spends_add_up_to_revenue σ r σ' key v :
  main σ = Ok (r, σ') →
  wf_frame (transactions σ) = true →
  assoc "CustomerID" (columns (transactions σ)) = Some key →
  all_present key = true →
  assoc "TotalValue" (columns (transactions σ)) = Some (int64 v) →
  ∃ spends,
    assoc "total_spend" (columns (res_customer_behavior r))
    = Some (int64 spends)
    ∧ total_revenue (res_transaction_metrics r) = SInt (wrap64 (total_Z v))
    ∧ wrap64 (total_Z spends) = wrap64 (total_Z v).
Proof.
  intros (cm & pm & tm & σ1 & out & Heda & Hviz & Hrun & ->)%main_Ok_iff
    Hwf Hkey Hpresent Hv.
  destruct (before_analysis_store _ _ _ _ Heda Hviz)
    as (Hc & _ & _ & _ & Hcols & _).
  apply perform_eda_Ok_iff in Heda
    as (? & ? & ? & ? & ? & ? & ? & ? & tv & rev & ? & ? & _ & _ & _ & _
        & _ & _ & _ & _ & _ & Htv & Hrev & _ & _ & Hr & _).
  apply analyze_Ok_inv in Hrun as (_ & _ & Hagg).
  apply aggregate_Ok_inv in Hagg
    as (key' & tid & tv' & qty & spend & avg' & items & Hkey' & _ & Htv' & _
        & Hspend & _ & _ & ->).
  rewrite Hcols, Hkey in Hkey' by done. rewrite Hcols, Htv in Htv' by done.
  pose proof (wf_frame_len _ _ _ Hwf Htv) as Hvlen.
  pose proof (wf_frame_len _ _ _ Hwf Hkey) as Hklen.
  simplify_eq/=.
  pose proof (reduce_sum_adds_up key' (int64 v) spend Hspend) as Hsum.
  unfold reduce in Hspend. simplify_eq/=. eexists. split; [done|].
  rewrite sum_int64_total. split; [done|].
  rewrite <-!sum_int64_total.
  assert (Ok (SInt (sum_int64
                      (per_group (series_len (factorize key').2)
                         (λ g, sum_int64
                                 (group_values (factorize key').1 v g)))))
          = Ok (SInt (sum_int64 v))) as [= ->]; [|done].
  apply Hsum; [done|].
  simpl. by rewrite Hvlen, Hklen.
Qed.

Lemma spends_add_up_to_revenue_witness :
  ∃ r σ' key,
    main sample_whole = Ok (r, σ')
    ∧ wf_frame (transactions sample_whole) = true
    ∧ assoc "CustomerID" (columns (transactions sample_whole)) = Some key
    ∧ all_present key = true
    ∧ ∃ spends,
        assoc "total_spend" (columns (res_customer_behavior r))
        = Some (int64 spends)
        ∧ total_revenue (res_transaction_metrics r)
          = SInt (wrap64 (total_Z [20; 5; 30]))
        ∧ wrap64 (total_Z spends) = wrap64 (total_Z [20; 5; 30]).
Proof.
  do 3 eexists. split; [vm_compute; reflexivity|].
  split; [reflexivity|]. split; [reflexivity|]. split; [reflexivity|].
  eapply (spends_add_up_to_revenue sample_whole); [vm_compute| | | |];
    reflexivity.
Defined.

(** X11.  When no transaction lacks its customer identifier or its
    transaction identifier, the transaction counts of the behaviour table
    add up to the number of transactions that [perform_eda] reports. *)
Theorem counts_add_up_to_transactions σ r σ' key tid :
  main σ = Ok (r, σ') →
  wf_frame (transactions σ) = true →
  assoc "CustomerID" (columns (transactions σ)) = Some key →
  all_present key = true →
  assoc "TransactionID" (columns (transactions σ)) = Some tid →
  all_present tid = true →
  ∃ counts,
    assoc "total_transactions" (columns (res_customer_behavior r))
    = Some (int64 counts)
    ∧ total_Z counts
      = Z.of_nat (total_transactions (res_transaction_metrics r)).
Proof.
  intros (cm & pm & tm & σ1 & out & Heda & Hviz & Hrun & ->)%main_Ok_iff
    Hwf Hkey Hpresent Htid Htpresent.
  destruct (before_analysis_store _ _ _ _ Heda Hviz)
    as (Hc & _ & _ & _ & Hcols & _).
  apply perform_eda_Ok_iff in Heda
    as (? & ? & ? & ? & ? & ? & ? & ? & tv & rev & ? & ? & _ & _ & _ & _
        & _ & _ & _ & _ & _ & _ & _ & _ & _ & Hr & _).
  apply analyze_Ok_inv in Hrun as (_ & _ & Hagg).
  apply aggregate_Ok_inv in Hagg
    as (key' & tid' & tv' & qty & spend & avg' & items & Hkey' & Htid' & _
        & _ & _ & _ & _ & ->).
  rewrite Hcols, Hkey in Hkey' by done.
  rewrite Hcols, Htid in Htid' by done.
  simplify_eq/=. eexists. split; [done|].
  destruct (factorize_codes key') as (Hcl & Hbound & Hall).
  rewrite count_groups; [|done|by apply Hall|].
  - rewrite count_notna_present by by apply all_present_cells.
    by rewrite cells_length, (wf_frame_len _ _ _ Hwf Htid).
  - by rewrite Hcl, cells_length, (wf_frame_len _ _ _ Hwf Htid),
      (wf_frame_len _ _ _ Hwf Hkey).
Qed.

Lemma counts_add_up_to_transactions_witness :
  ∃ r σ' key tid,
    main sample = Ok (r, σ')
    ∧ wf_frame (transactions sample) = true
    ∧ assoc "CustomerID" (columns (transactions sample)) = Some key
    ∧ all_present key = true
    ∧ assoc "TransactionID" (columns (transactions sample)) = Some tid
    ∧ all_present tid = true
    ∧ ∃ counts,
        assoc "total_transactions" (columns (res_customer_behavior r))
        = Some (int64 counts)
        ∧ total_Z counts
          = Z.of_nat (total_transactions (res_transaction_metrics r)).
Proof.
  do 4 eexists. split; [vm_compute; reflexivity|].
  split; [reflexivity|]. split; [reflexivity|]. split; [reflexivity|].
  split; [reflexivity|]. split; [reflexivity|].
  eapply (counts_add_up_to_transactions sample);
    [vm_compute| | | | |]; reflexivity.
Defined.

(** ** Failures of the earlier steps *)

Lemma bind_raise {A B} (m : M A) (k : A → M B) σ e :
  m σ = Raise e → (m ≫= k) σ = Raise e.
Proof. intros Hm. unfold mbind, M_bind, bind. by rewrite Hm. Qed.

Lemma column_raise r c σ :
  assoc c (columns (deref r σ)) = None →
  column r c σ = Raise (KeyError [c]).
Proof.
  intros Hs. unfold column, read, getitem, lift, mbind, M_bind, bind. simpl.
  by rewrite Hs.
Qed.

Lemma lift_raise {A} (o : outcome A) σ e : o = Raise e → lift o σ = Raise e.
Proof. by intros ->. Qed.

Lemma dt_year_raise s : is_datetimelike s = false → dt_year s = Raise AttributeError.
Proof. by destruct s. Qed.

Lemma dt_to_period_M_raise s :
  is_timestamps s = false → dt_to_period_M s = Raise AttributeError.
Proof. by destruct s. Qed.

(** X12.  What [perform_eda] raises, in the order in which it looks at
    the tables: KeyError for the first column it does not find among
    Region, SignupDate, Category, Price and TransactionDate, and
    AttributeError when it takes the year of a SignupDate or a
    TransactionDate that is not datetimelike. *)
Theorem perform_eda_failures σ :
  (assoc "Region" (columns (customers σ)) = None →
   perform_eda Customers Products Transactions σ
   = Raise (KeyError ["Region"]))
  ∧ (has_column (customers σ) "Region" = true →
     assoc "SignupDate" (columns (customers σ)) = None →
     perform_eda Customers Products Transactions σ
     = Raise (KeyError ["SignupDate"]))
  ∧ (∀ signup,
       has_column (customers σ) "Region" = true →
       assoc "SignupDate" (columns (customers σ)) = Some signup →
       (is_datetimelike signup = false →
        perform_eda Customers Products Transactions σ
        = Raise AttributeError)
       ∧ (is_datetimelike signup = true →
          (assoc "Category" (columns (products σ)) = None →
           perform_eda Customers Products Transactions σ
           = Raise (KeyError ["Category"]))
          ∧ (has_column (products σ) "Category" = true →
             (assoc "Price" (columns (products σ)) = None →
              perform_eda Customers Products Transactions σ
              = Raise (KeyError ["Price"]))
             ∧ (has_column (products σ) "Price" = true →
                (assoc "TransactionDate" (columns (transactions σ)) = None →
                 perform_eda Customers Products Transactions σ
                 = Raise (KeyError ["TransactionDate"]))
                ∧ (∀ date,
                     assoc "TransactionDate" (columns (transactions σ))
                     = Some date →
                     is_datetimelike date = false →
                     perform_eda Customers Products Transactions σ
                     = Raise AttributeError))))).
Proof.
  unfold perform_eda. split_and!.
  - intros Hregion.
    erewrite bind_run; [|done].
    by erewrite bind_raise; [|by apply column_raise].
  - intros [region Hregion]%has_column_assoc Hsignup.
    erewrite bind_run; [|done].
    erewrite bind_run; [|by apply column_run].
    by erewrite bind_raise; [|by apply column_raise].
  - intros signup [region Hregion]%has_column_assoc Hsignup. split.
    { intros Hnot.
      erewrite bind_run; [|done].
      erewrite bind_run; [|by apply column_run].
      erewrite bind_run; [|by apply column_run].
      by erewrite bind_raise; [|by apply lift_raise, dt_year_raise]. }
    intros [sy Hsy]%dt_year_Ok. split.
    { intros Hcat.
      erewrite bind_run; [|done].
      erewrite bind_run; [|by apply column_run].
      erewrite bind_run; [|by apply column_run].
      erewrite bind_run; [|by apply lift_run].
      erewrite bind_run; [|done].
      by erewrite bind_raise; [|by apply column_raise]. }
    intros [category Hcat]%has_column_assoc. split.
    { intros Hprice.
      erewrite bind_run; [|done].
      erewrite bind_run; [|by apply column_run].
      erewrite bind_run; [|by apply column_run].
      erewrite bind_run; [|by apply lift_run].
      erewrite bind_run; [|done].
      erewrite bind_run; [|by apply column_run].
      by erewrite bind_raise; [|by apply column_raise]. }
    intros [price Hprice]%has_column_assoc. split.
    { intros Hdate.
      erewrite bind_run; [|done].
      erewrite bind_run; [|by apply column_run].
      erewrite bind_run; [|by apply column_run].
      erewrite bind_run; [|by apply lift_run].
      erewrite bind_run; [|done].
      erewrite bind_run; [|by apply column_run].
      erewrite bind_run; [|by apply column_run].
      by erewrite bind_raise; [|by apply column_raise]. }
    intros date Hdate Hnot.
    erewrite bind_run; [|done].
    erewrite bind_run; [|by apply column_run].
    erewrite bind_run; [|by apply column_run].
    erewrite bind_run; [|by apply lift_run].
    erewrite bind_run; [|done].
    erewrite bind_run; [|by apply column_run].
    erewrite bind_run; [|by apply column_run].
    erewrite bind_run; [|by apply column_run].
    by erewrite bind_raise; [|by apply lift_raise, dt_year_raise].
Qed.

Lemma perform_eda_failures_witness :
  perform_eda Customers Products Transactions sample_without_id
  = Raise (KeyError ["TransactionDate"]).
Proof.
  destruct (perform_eda_failures sample_without_id) as (_ & _ & H).
  destruct (H (datetime64 [at_day 19000; at_day 19400]) eq_refl eq_refl)
    as (_ & H1).
  destruct (H1 eq_refl) as (_ & H2). destruct (H2 eq_refl) as (_ & H3).
  destruct (H3 eq_refl) as (H4 & _). by apply H4.
Defined.

(** X13.  Given the Region and Price columns it plots,
    [generate_visualizations] raises KeyError when the transaction table
    has no TransactionDate and AttributeError when TransactionDate does
    not hold timestamps (a column of monthly periods, which [perform_eda]
    accepts, included). *)
Theorem generate_visualizations_failures σ :
  has_column (customers σ) "Region" = true →
  has_column (products σ) "Price" = true →
  (assoc "TransactionDate" (columns (transactions σ)) = None →
   generate_visualizations Customers Products Transactions σ
   = Raise (KeyError ["TransactionDate"]))
  ∧ (∀ date,
       assoc "TransactionDate" (columns (transactions σ)) = Some date →
       is_timestamps date = false →
       generate_visualizations Customers Products Transactions σ
       = Raise AttributeError).
Proof.
  intros Hregion Hprice. unfold generate_visualizations. split_and!.
  - intros Hdate.
    erewrite bind_run; [|by apply plotted_run].
    erewrite bind_run; [|by apply plotted_run].
    by erewrite bind_raise; [|by apply column_raise].
  - intros date Hdate Hnot.
    erewrite bind_run; [|by apply plotted_run].
    erewrite bind_run; [|by apply plotted_run].
    erewrite bind_run; [|by apply column_run].
    by erewrite bind_raise; [|by apply lift_raise, dt_to_period_M_raise].
Qed.

Lemma generate_visualizations_failures_witness :
  has_column (customers sample_without_id) "Region" = true
  ∧ has_column (products sample_without_id) "Price" = true
  ∧ generate_visualizations Customers Products Transactions sample_without_id
    = Raise (KeyError ["TransactionDate"]).
Proof.
  split_and!; [reflexivity..|].
  by apply (generate_visualizations_failures sample_without_id).
Defined.

(** X14.  Whenever the aggregator returns a table, its rows are the
    customers of the transaction table, and in the row of a customer
    whose amounts, if they are integers, add up to at most 2^53 in
    absolute value, the average transaction value is the total spend
    divided by the number of that customer's transactions that have a
    TotalValue; the average is missing exactly when none of them has
    one, and the total spend is then zero. *)
Theorem average_is_over_values_present σ out σ' :
  analyze_customer_behavior Customers Transactions σ = Ok (out, σ') →
  rows_are_customers (transactions σ) out
  ∧ ∀ g k, row_of out g k →
      exact_in_double (transactions σ) "TotalValue" k →
      ∃ x s a,
        cell out "total_spend" g = Some (Some x)
        ∧ number x = Some s
        ∧ cell out "avg_transaction_value" g = Some (SFloat <$> a)
        ∧ match a with
          | Some a =>
              0 < count_of (transactions σ) "TotalValue" k
              ∧ a = (s / Qc_of_Z (count_of (transactions σ) "TotalValue" k))%Qc
          | None =>
              count_of (transactions σ) "TotalValue" k = 0 ∧ s = 0%Qc
          end.
Proof.
  intros [Hcust Hrows]%behaviour_rows. split; [done|].
  intros g k Hg Hexact.
  destruct (Hrows g k Hg) as (_ & (s0 & Hs0 & Hspend) & Havg & _).
  destruct (average_quotient _ _ _ Hexact Hs0) as (s & Hs & Hmean).
  by exists (wrapped s0), s, (average_of (transactions σ) "TotalValue" k).
Qed.

Lemma average_is_over_values_present_witness :
  ∃ out,
    analyze_customer_behavior Customers Transactions sample_with_gaps
    = Ok (out, sample_with_gaps)
    ∧ col (transactions sample_with_gaps) "TotalValue"
      = [Some (SFloat (Qc_of_Z 10)); None; Some (SFloat (Qc_of_Z 7))]
    ∧ col out "total_transactions" = [Some (SInt 2); Some (SInt 0)]
    ∧ rows_are_customers (transactions sample_with_gaps) out
    ∧ ∀ g k, row_of out g k →
        exact_in_double (transactions sample_with_gaps) "TotalValue" k →
        ∃ x s a,
          cell out "total_spend" g = Some (Some x)
          ∧ number x = Some s
          ∧ cell out "avg_transaction_value" g = Some (SFloat <$> a)
          ∧ match a with
            | Some a =>
                0 < count_of (transactions sample_with_gaps) "TotalValue" k
                ∧ a = (s / Qc_of_Z (count_of (transactions sample_with_gaps)
                                      "TotalValue" k))%Qc
            | None =>
                count_of (transactions sample_with_gaps) "TotalValue" k = 0
                ∧ s = 0%Qc
            end.
Proof.
  eexists. split; [vm_compute; reflexivity|].
  split; [reflexivity|]. split; [reflexivity|].
  eapply (average_is_over_values_present sample_with_gaps).
  vm_compute; reflexivity.
Defined.
